(** * epub_verify: image references of EPUB archives

  A shallow embedding of [main.py]: the [EpubValidator] class, which
  checks that every image referenced from the HTML documents of a zip
  archive is an entry of that archive, and the [EpubSorter] class, which
  runs the validator over a directory and optionally moves the broken
  archives into a [broken] subdirectory.

  Representation of Python values.
  - A [str] is a Rocq [string] holding the UTF-8 encoding of its code
    points.  Every operation the program performs on strings looks for
    ASCII delimiters only (the slash, the percent sign, the dot, ASCII
    prefixes and suffixes), so it acts on the encoding exactly as it acts
    on the code points.
  - A [set] of strings is a [gset string]; iterating it visits
    [elements], an order that is fixed for a given set and otherwise
    unspecified, as in Python.
  - A [dict] of attributes is a [gmap string string].
  - A [pathlib.Path] is the list of its parts.
  - The file system maps a path to the file or directory found there;
    what a directory holds is found at the paths that extend its own.
    Whether the system lets [exists], [mkdir] or a move fail is part of
    the world, and the properties hold for every such behaviour.
  - Methods that mutate [self] or perform I/O are computations in a
    state-and-exception monad. *)

From Stdlib Require Import Ascii String NArith.
From stdpp Require Import gmap strings list fin_maps pretty.

Local Open Scope string_scope.
Local Open Scope list_scope.

(** ** Python string methods *)

Module Str.

Definition is_sep (c : ascii) : bool := Ascii.eqb c "/".

(** [s.startswith(p)] *)
Fixpoint startswith (s p : string) {struct p} : bool :=
  match p, s with
  | EmptyString, _ => true
  | String _ _, EmptyString => false
  | String b p', String a s' => Ascii.eqb a b && startswith s' p'
  end.

(** [s.startswith((p1, p2, ...))] *)
Definition startswith_any (s : string) (ps : list string) : bool :=
  existsb (startswith s) ps.

(** [s.endswith(p)]: some suffix of [s] is [p]. *)
Fixpoint endswith (s p : string) : bool :=
  String.eqb s p ||
  match s with
  | EmptyString => false
  | String _ s' => endswith s' p
  end.

Definition endswith_any (s : string) (ps : list string) : bool :=
  existsb (endswith s) ps.

Definition lower_ascii (c : ascii) : ascii :=
  let n := N_of_ascii c in
  if ((65 <=? n) && (n <=? 90))%N then ascii_of_N (n + 32) else c.

(** [s.lower()].  Only the letters A-Z are mapped: the program tests the
    result against the ASCII suffixes [.html], [.xhtml] and [.htm] only,
    and no character outside A-Z lowers to one of [h t m l x .]. *)
Fixpoint lower (s : string) : string :=
  match s with
  | EmptyString => EmptyString
  | String c s' => String (lower_ascii c) (lower s')
  end.

(** [s.split('/')] *)
Fixpoint split_sep (s : string) : list string :=
  match s with
  | EmptyString => [EmptyString]
  | String c s' =>
      if is_sep c then EmptyString :: split_sep s'
      else match split_sep s' with
           | [] => [String c EmptyString]
           | w :: ws => String c w :: ws
           end
  end.

(** [s[:s.rfind('/') + 1]]: [s] up to and including its last slash. *)
Fixpoint through_last_sep (s : string) : string :=
  match s with
  | EmptyString => EmptyString
  | String c s' =>
      match through_last_sep s' with
      | EmptyString => if is_sep c then String c EmptyString else EmptyString
      | h => String c h
      end
  end.

(** [s.rstrip('/')] *)
Fixpoint rstrip_sep (s : string) : string :=
  match s with
  | EmptyString => EmptyString
  | String c s' =>
      match rstrip_sep s' with
      | EmptyString => if is_sep c then EmptyString else String c EmptyString
      | t => String c t
      end
  end.

(** [s == '/' * len(s)] *)
Fixpoint all_sep (s : string) : bool :=
  match s with
  | EmptyString => true
  | String c s' => is_sep c && all_sep s'
  end.

(** Truth value of a string: non-empty. *)
Definition nonempty (s : string) : bool :=
  match s with EmptyString => false | _ => true end.

End Str.

(** ** posixpath *)

Module posixpath.

(** [posixpath.dirname] *)
Definition dirname (p : string) : string :=
  let head := Str.through_last_sep p in
  if Str.nonempty head && negb (Str.all_sep head)
  then Str.rstrip_sep head
  else head.

(** [posixpath.join(a, b)] with one component to append. *)
Definition join (a b : string) : string :=
  if Str.startswith b "/" then b
  else if negb (Str.nonempty a) || Str.endswith a "/" then a +:+ b
  else a +:+ "/" +:+ b.

(** The loop body of [normpath]: [new_comps] is kept reversed, so that
    its head is Python's [new_comps[-1]]. *)
Definition normpath_step (initial_slashes : nat)
    (new_comps : list string) (comp : string) : list string :=
  if String.eqb comp "" || String.eqb comp "." then new_comps
  else if negb (String.eqb comp "..")
          || (Nat.eqb initial_slashes 0 && bool_decide (new_comps = []))
          || match new_comps with
             | last :: _ => String.eqb last ".."
             | [] => false
             end
  then comp :: new_comps
  else match new_comps with
       | _ :: rest => rest
       | [] => []
       end.

Fixpoint repeat_sep (n : nat) : string :=
  match n with O => "" | S n' => String "/" (repeat_sep n') end.

(** [posixpath.normpath] *)
Definition normpath (path : string) : string :=
  if String.eqb path "" then "."
  else
    let initial_slashes :=
      if Str.startswith path "/" then
        if Str.startswith path "//" && negb (Str.startswith path "///")
        then 2 else 1
      else 0 in
    let comps := Str.split_sep path in
    let new_comps := rev (fold_left (normpath_step initial_slashes) comps []) in
    let path := String.concat "/" new_comps in
    let path := repeat_sep initial_slashes +:+ path in
    if Str.nonempty path then path else ".".

End posixpath.

(** ** urllib.parse.unquote *)

Module urllib.

(** Value of a hexadecimal digit, either case (the keys of [_hextobyte]). *)
Definition hex_value (c : ascii) : option N :=
  let n := N_of_ascii c in
  if ((48 <=? n) && (n <=? 57))%N then Some (n - 48)%N
  else if ((65 <=? n) && (n <=? 70))%N then Some (n - 55)%N
  else if ((97 <=? n) && (n <=? 102))%N then Some (n - 87)%N
  else None.

Definition hex_pair (h l : ascii) : option ascii :=
  match hex_value h, hex_value l with
  | Some a, Some b => Some (ascii_of_N (16 * a + b))
  | _, _ => None
  end.

(** [unquote_to_bytes]: a percent sign followed by two hexadecimal digits
    becomes the byte they denote; any other percent sign is kept. *)
Fixpoint unquote_to_bytes (s : string) : string :=
  match s with
  | EmptyString => EmptyString
  | String c r =>
      if Ascii.eqb c "%" then
        match r with
        | String h (String l r') =>
            match hex_pair h l with
            | Some b => String b (unquote_to_bytes r')
            | None => String c (unquote_to_bytes r)
            end
        | _ => String c (unquote_to_bytes r)
        end
      else String c (unquote_to_bytes r)
  end.

(** U+FFFD REPLACEMENT CHARACTER, encoded. *)
Definition replacement : string :=
  String "239" (String "191" (String "189" EmptyString)).

Definition byte_in (lo hi : N) (c : ascii) : bool :=
  let n := N_of_ascii c in ((lo <=? n) && (n <=? hi))%N.

Definition is_continuation (c : ascii) : bool := byte_in 128 191 c.

(** For a lead byte: the length of its sequence and the range allowed for
    the second byte; [None] for a byte that cannot start a sequence. *)
Definition lead_info (c : ascii) : option (nat * N * N) :=
  let n := N_of_ascii c in
  if (n <? 194)%N then None
  else if (n <? 224)%N then Some (2%nat, 128%N, 191%N)
  else if (n =? 224)%N then Some (3%nat, 160%N, 191%N)
  else if (n =? 237)%N then Some (3%nat, 128%N, 159%N)
  else if (n <? 240)%N then Some (3%nat, 128%N, 191%N)
  else if (n =? 240)%N then Some (4%nat, 144%N, 191%N)
  else if (n <? 244)%N then Some (4%nat, 128%N, 191%N)
  else if (n =? 244)%N then Some (4%nat, 128%N, 143%N)
  else None.

(** [bytes.decode('utf-8', 'replace')], the result encoded again: well
    formed sequences are kept, every maximal ill-formed part becomes one
    replacement character. *)
Fixpoint decode_replace (s : string) : string :=
  match s with
  | EmptyString => EmptyString
  | String c1 r1 =>
      if (N_of_ascii c1 <? 128)%N then String c1 (decode_replace r1)
      else match lead_info c1 with
      | None => replacement +:+ decode_replace r1
      | Some (len, lo, hi) =>
          match r1 with
          | EmptyString => replacement
          | String c2 r2 =>
              if negb (byte_in lo hi c2) then replacement +:+ decode_replace r1
              else if Nat.eqb len 2 then String c1 (String c2 (decode_replace r2))
              else match r2 with
              | EmptyString => replacement
              | String c3 r3 =>
                  if negb (is_continuation c3)
                  then replacement +:+ decode_replace r2
                  else if Nat.eqb len 3
                  then String c1 (String c2 (String c3 (decode_replace r3)))
                  else match r3 with
                  | EmptyString => replacement
                  | String c4 r4 =>
                      if negb (is_continuation c4)
                      then replacement +:+ decode_replace r3
                      else String c1 (String c2 (String c3
                             (String c4 (decode_replace r4))))
                  end
              end
          end
      end
  end.

(** One maximal ASCII run of the argument: unquoted, then decoded. *)
Definition unquote_run (run : string) : string :=
  decode_replace (unquote_to_bytes run).

(** The runs of ASCII characters are unquoted one by one; the characters
    between them are kept.  [run] is the ASCII run read so far. *)
Fixpoint unquote_parts (s run : string) : string :=
  match s with
  | EmptyString => unquote_run run
  | String c s' =>
      if (N_of_ascii c <? 128)%N
      then unquote_parts s' (run +:+ String c EmptyString)
      else unquote_run run +:+ String c (unquote_parts s' EmptyString)
  end.

Fixpoint contains_percent (s : string) : bool :=
  match s with
  | EmptyString => false
  | String c s' => Ascii.eqb c "%" || contains_percent s'
  end.

(** [urllib.parse.unquote(string)] *)
Definition unquote (s : string) : string :=
  if negb (contains_percent s) then s else unquote_parts s EmptyString.

End urllib.

(** ** Exceptions, state and logging *)

(** The two classes of exception the program tells apart: [zipfile.BadZipFile]
    and every other subclass of [Exception].  [msg] is [str(e)]. *)
Inductive exn : Type :=
  | BadZipFile (msg : string)
  | OtherException (msg : string).

Definition exn_str (e : exn) : string :=
  match e with BadZipFile msg => msg | OtherException msg => msg end.

(** How a call ends: with a value or with a raised exception. *)
Inductive result (A : Type) : Type :=
  | Return (a : A)
  | Raise (e : exn).
Arguments Return {A} a.
Arguments Raise {A} e.

(** A computation over a state [S].  The state it has reached is kept when
    it raises: assignments to [self] made before a [raise] stay made. *)
Definition M (S A : Type) : Type := S -> S * result A.

Definition ret {S A} (a : A) : M S A := fun s => (s, Return a).

Definition bind {S A B} (m : M S A) (k : A -> M S B) : M S B :=
  fun s => match m s with
           | (s', Return a) => k a s'
           | (s', Raise e) => (s', Raise e)
           end.

Definition raise {S A} (e : exn) : M S A := fun s => (s, Raise e).

Definition get {S} : M S S := fun s => (s, Return s).

Definition modify {S} (f : S -> S) : M S unit := fun s => (f s, Return tt).

(** [try: body  except Exception as e: handler(e)] *)
Definition try_except {S A} (body : M S A) (handler : exn -> M S A) : M S A :=
  fun s => match body s with
           | (s', Return a) => (s', Return a)
           | (s', Raise e) => handler e s'
           end.

(** The outcome of a library call that does not touch the state. *)
Definition lift {S A} (r : result A) : M S A := fun s => (s, r).

Declare Scope py_scope.
Delimit Scope py_scope with py.
Notation "x ← y ; z" := (bind y (fun x => z))
  (at level 20, y at level 100, z at level 200, only parsing) : py_scope.
Notation "x ;; z" := (bind x (fun _ => z))
  (at level 100, z at level 200, only parsing, right associativity) : py_scope.

(** [for x in l: body(x)] *)
Fixpoint for_each {S A} (l : list A) (body : A -> M S unit) : M S unit :=
  match l with
  | [] => ret tt
  | x :: l' => (body x ;; for_each l' body)%py
  end.

Inductive level : Type := DEBUG | INFO | WARNING | ERROR.

Definition levelno (l : level) : nat :=
  match l with DEBUG => 10 | INFO => 20 | WARNING => 30 | ERROR => 40 end.

(** What the module's logger has written: the records, oldest first. *)
Definition log_t : Type := list (level * string).

(** [logging.basicConfig(level=logging.INFO)]: a record below [INFO] is
    dropped, any other is written. *)
Definition log_emit (l : level) (msg : string) (log : log_t) : log_t :=
  if (levelno INFO <=? levelno l)%nat then log ++ [(l, msg)] else log.

(** ** The environment: parsed documents, zip archives, the file system *)

(** A [pathlib.Path], as its parts. *)
Abbreviation Path := (list string).

(** The first part of an absolute path is its root, [/] or [//]. *)
Definition is_root (part : string) : bool :=
  Str.nonempty part && Str.all_sep part.

(** [path.name]: the last part, and the empty string for a root. *)
Definition Path_name (p : Path) : string :=
  match p with
  | [root] => if is_root root then "" else root
  | _ => default "" (last p)
  end.

(** [str(path)]: the parts joined by slashes, after the root if there is
    one. *)
Definition Path_str (p : Path) : string :=
  match p with
  | [] => "."
  | root :: rest =>
      if is_root root then root +:+ String.concat "/" rest
      else String.concat "/" p
  end.

(** An element of a parsed document: its name and its attribute dict. *)
Record Tag : Type := mkTag {
  tag_name : string;
  tag_attrs : gmap string string
}.

(** What [BeautifulSoup(f, 'lxml')] returns, as far as the program looks at
    it: the elements of the document, in document order. *)
Abbreviation Soup := (list Tag).

(** [soup.find_all(name)] *)
Definition find_all (soup : Soup) (name : string) : list Tag :=
  filter (fun t => tag_name t = name) soup.

(** [tag.get(key)]: [None] stands for Python's [None]. *)
Definition Tag_get (t : Tag) (key : string) : option string :=
  tag_attrs t !! key.

(** Truth value of a [str] or [None]. *)
Definition truthy (v : option string) : bool :=
  match v with
  | Some s => Str.nonempty s
  | None => false
  end.

(** [a or b] *)
Definition py_or (a b : option string) : option string :=
  if truthy a then a else b.

(** An archive opened by [zipfile.ZipFile(path, 'r')]: the names of its
    entries, and for each name what opening the entry and parsing it with
    BeautifulSoup gives (a parsed document, or an exception raised by
    [zf.open], by reading the entry or by the parser). *)
Record ZipFile : Type := mkZipFile {
  namelist : list string;
  open_and_parse : string -> result Soup
}.

(** A file on disk, as the [zipfile] module sees it: the answer of
    [zipfile.is_zipfile] and the outcome of the [ZipFile] constructor. *)
Record file : Type := mkFile {
  is_zipfile : bool;
  ZipFile_open : result ZipFile
}.

Inductive node : Type :=
  | File (f : file)
  | Dir.

(** Everything outside the objects: the file system, the log written so
    far and the lines printed so far, and the ways in which the system
    lets a call fail.  The file system maps a path to the entry found
    there; what lies in a directory is found at the paths that extend the
    directory's. *)
Record world : Type := mkWorld {
  fs : gmap Path node;
  log : log_t;
  stdout : list string;
  (** the error, if any, with which the system refuses to create a directory *)
  mkdir_error : Path -> option string;
  (** the error, if any, with which a move of a source to a destination
      fails, together with what the failed move leaves at and below the
      source and the destination *)
  move_error : Path -> Path -> option (string * gmap Path node);
  (** the error, if any, with which looking up a path fails for another
      reason than the path not being there *)
  exists_error : Path -> option string
}.

Definition set_fs (m : gmap Path node) (w : world) : world :=
  {| fs := m; log := log w; stdout := stdout w;
     mkdir_error := mkdir_error w; move_error := move_error w;
     exists_error := exists_error w |}.

Definition set_log (l : log_t) (w : world) : world :=
  {| fs := fs w; log := l; stdout := stdout w;
     mkdir_error := mkdir_error w; move_error := move_error w;
     exists_error := exists_error w |}.

Definition set_stdout (out : list string) (w : world) : world :=
  {| fs := fs w; log := log w; stdout := out;
     mkdir_error := mkdir_error w; move_error := move_error w;
     exists_error := exists_error w |}.

(** [is_zipfile] answers [False] for a path that is missing or is a
    directory. *)
Definition file_at (w : world) (p : Path) : file :=
  match fs w !! p with
  | Some (File f) => f
  | _ => {| is_zipfile := false;
            ZipFile_open := Raise (OtherException "cannot open") |}
  end.

(** [logger.debug], [logger.info], [logger.warning], [logger.error] *)
Definition logger_call {O : Type} (l : level) (msg : string) : M (O * world) unit :=
  modify (fun st => (st.1, set_log (log_emit l msg (log st.2)) st.2)).

(** [print(line)] *)
Definition print {O : Type} (line : string) : M (O * world) unit :=
  modify (fun st => (st.1, set_stdout (stdout st.2 ++ [line]) st.2)).

(** ** class EpubValidator *)

Record EpubValidator : Type := mkEpubValidator {
  file_path : Path;
  missing_resources : list string;
  is_valid_zip : bool
}.

Module Validator.

Definition __init__ (file_path : Path) : EpubValidator :=
  {| file_path := file_path; missing_resources := []; is_valid_zip := true |}.

(** [self.is_valid_zip = b] *)
Definition set_is_valid_zip (b : bool) : M (EpubValidator * world) unit :=
  modify (fun st =>
    ({| file_path := file_path st.1;
        missing_resources := missing_resources st.1;
        is_valid_zip := b |}, st.2)).

(** [self.missing_resources.append(msg)] *)
Definition append_missing (msg : string) : M (EpubValidator * world) unit :=
  modify (fun st =>
    ({| file_path := file_path st.1;
        missing_resources := missing_resources st.1 ++ [msg];
        is_valid_zip := is_valid_zip st.1 |}, st.2)).

Definition external_schemes : list string :=
  ["http:"; "https:"; "data:"; "mailto:"].

Definition _verify_resource (src base_dir : string) (all_files : gset string)
    (context_file : string) : M (EpubValidator * world) unit :=
  if Str.startswith_any src external_schemes then ret tt
  else
    let src := urllib.unquote src in
    let target_path := posixpath.normpath (posixpath.join base_dir src) in
    if bool_decide (target_path ∉ all_files)
    then append_missing ("Missing: '" +:+ target_path +:+
                         "' (referenced in '" +:+ context_file +:+ "')")
    else ret tt.

Definition _scan_file_for_images (zf : ZipFile) (html_filename : string)
    (all_files : gset string) : M (EpubValidator * world) unit :=
  try_except
    (soup ← lift (open_and_parse zf html_filename);
     let base_dir := posixpath.dirname html_filename in
     for_each (find_all soup "img") (fun img =>
       let src := Tag_get img "src" in
       match src with
       | Some s => if truthy src
                   then _verify_resource s base_dir all_files html_filename
                   else ret tt
       | None => ret tt
       end) ;;
     for_each (find_all soup "image") (fun image =>
       let href := py_or (Tag_get image "xlink:href") (Tag_get image "href") in
       match href with
       | Some h => if truthy href
                   then _verify_resource h base_dir all_files html_filename
                   else ret tt
       | None => ret tt
       end))%py
    (fun e => st ← get;
              logger_call DEBUG
                ("Could not parse " +:+ html_filename +:+ " in " +:+
                 Path_name (file_path st.1) +:+ ": " +:+ exn_str e))%py.

Definition is_content_document (filename : string) : bool :=
  Str.endswith_any (Str.lower filename) [".html"; ".xhtml"; ".htm"].

(** The loop of [_check_content_files], over the entry names in the order
    in which the set yields them. *)
Definition check_in_order (order : list string) (zf : ZipFile)
    (all_files : gset string) : M (EpubValidator * world) unit :=
  for_each order (fun filename =>
    if is_content_document filename
    then _scan_file_for_images zf filename all_files
    else ret tt).

Definition _check_content_files (zf : ZipFile) (all_files : gset string)
    : M (EpubValidator * world) unit :=
  check_in_order (elements all_files) zf all_files.

(** [validate]: the [with] block yields [Some b] when a handler returned
    [b] from the method, [None] when control falls through to the final
    [return]. *)
Definition validate : M (EpubValidator * world) bool :=
  (st ← get;
   let f := file_at st.2 (file_path st.1) in
   if negb (is_zipfile f) then
     set_is_valid_zip false ;; ret false
   else
     returned ← try_except
       (zf ← lift (ZipFile_open f);
        let all_files : gset string := list_to_set (namelist zf) in
        _check_content_files zf all_files ;;
        ret None)
       (fun e =>
          match e with
          | BadZipFile _ => set_is_valid_zip false ;; ret (Some false)
          | OtherException _ =>
              logger_call ERROR
                ("Error processing " +:+ Path_name (file_path st.1) +:+
                 ": " +:+ exn_str e) ;;
              ret (Some false)
          end);
     match returned with
     | Some b => ret b
     | None =>
         st' ← get;
         ret (Nat.eqb (length (missing_resources st'.1)) 0)
     end)%py.

End Validator.

(** ** pathlib and shutil on the file system *)

(** How [path.exists()] ends.  It calls [stat] and answers [False] when
    the path is not there; any other error of [stat] (a name too long, a
    directory that may not be searched) is raised to the caller. *)
Definition Path_exists_outcome (w : world) (p : Path) : result bool :=
  match exists_error w p with
  | Some msg => Raise (OtherException msg)
  | None => Return (bool_decide (is_Some (fs w !! p)))
  end.

(** The call [path.exists()]. *)
Definition Path_exists_call {O : Type} (p : Path) : M (O * world) bool :=
  fun st => (st, Path_exists_outcome st.2 p).

(** [path.exists()] answers [True]: it returns, and the path is there. *)
Definition Path_exists (w : world) (p : Path) : bool :=
  match Path_exists_outcome w p with
  | Return b => b
  | Raise _ => false
  end.

(** [str(e)] for the [FileExistsError] of [os.mkdir], for a path whose
    text [repr] leaves as it is. *)
Definition file_exists_error (p : Path) : string :=
  "[Errno 17] File exists: '" +:+ Path_str p +:+ "'".

(** [path.mkdir(exist_ok=True)]: nothing to do for a directory that is
    there; the [FileExistsError] of [os.mkdir] when a file has the name;
    otherwise the directory is created unless the system refuses. *)
Definition Path_mkdir_exist_ok {O : Type} (p : Path) : M (O * world) unit :=
  fun st =>
    match fs st.2 !! p with
    | Some Dir => (st, Return tt)
    | Some (File _) => (st, Raise (OtherException (file_exists_error p)))
    | None =>
        match mkdir_error st.2 p with
        | Some msg => (st, Raise (OtherException msg))
        | None => ((st.1, set_fs (<[p := Dir]> (fs st.2)) st.2), Return tt)
        end
    end.

(** The paths at and below [src] that have an entry. *)
Definition moved_keys (src : Path) (m : gmap Path node) : gset Path :=
  filter (fun k => src `prefix_of` k) (dom m).

(** The entries at and below [src], at the paths they have once [src] is
    called [dst]. *)
Definition moved_tree (src dst : Path) (m : gmap Path node) : gmap Path node :=
  set_to_map (fun k => (dst ++ drop (length src) k, default Dir (m !! k)))
    (moved_keys src m).

(** The file system after [src] has been renamed to [dst]: the entry and,
    for a directory, everything below it are found at and below [dst],
    and nothing is left at or below [src]. *)
Definition rename_tree (src dst : Path) (m : gmap Path node) : gmap Path node :=
  moved_tree src dst m
  ∪ filter (fun kv => ¬ src `prefix_of` kv.1 ∧ ¬ dst `prefix_of` kv.1) m.

(** The file system after a move of [src] to [dst] has failed: at and
    below the two paths it holds what the failed move left there, and
    everywhere else what it held. *)
Definition graft (src dst : Path) (remains m : gmap Path node) : gmap Path node :=
  filter (fun kv => src `prefix_of` kv.1 ∨ dst `prefix_of` kv.1) remains
  ∪ filter (fun kv => ¬ (src `prefix_of` kv.1 ∨ dst `prefix_of` kv.1)) m.

(** [str(e)] for the [FileNotFoundError] raised for a source that is not
    there. *)
Definition no_such_file_error (p : Path) : string :=
  "[Errno 2] No such file or directory: '" +:+ Path_str p +:+ "'".

(** [str(e)] for the error raised when the destination lies below the
    source: [shutil.Error] for a directory, and the [NotADirectoryError]
    of the copy for a file. *)
Definition into_itself_error (n : node) (src dst : Path) : string :=
  match n with
  | Dir => "Cannot move a directory '" +:+ Path_str src +:+
           "' into itself '" +:+ Path_str dst +:+ "'."
  | File _ => "[Errno 20] Not a directory: '" +:+ Path_str dst +:+ "'"
  end.

(** [shutil.move(src, dst)] for a destination that does not exist; the
    program calls it only after [dst.exists()] has answered [False].  The
    source is renamed, a directory with all that lies below it.  When the
    rename is refused [shutil.move] copies the source and then removes
    it, so a move that fails may have done part of its work: a copy,
    whole or partial, may be left at the destination, and of a directory
    part may be gone. *)
Definition shutil_move {O : Type} (src dst : Path) : M (O * world) unit :=
  fun st =>
    match fs st.2 !! src with
    | None => (st, Raise (OtherException (no_such_file_error src)))
    | Some n =>
        if decide (src `prefix_of` dst) then
          (st, Raise (OtherException (into_itself_error n src dst)))
        else
          match move_error st.2 src dst with
          | Some (msg, remains) =>
              ((st.1, set_fs (graft src dst remains (fs st.2)) st.2),
               Raise (OtherException msg))
          | None =>
              ((st.1, set_fs (rename_tree src dst (fs st.2)) st.2), Return tt)
          end
    end.

(** [list(directory.glob("*.epub"))]: the entries directly below the
    directory whose name ends in [.epub], in the order in which the system
    lists them. *)
Definition glob_epub (w : world) (directory : Path) : list Path :=
  filter (fun p => p = directory ++ [Path_name p]
                   ∧ Str.endswith (Path_name p) ".epub" = true)
         (elements (dom (fs w))).

(** ** class EpubSorter *)

Record EpubSorter : Type := mkEpubSorter {
  directory : Path;
  isolate_broken : bool;
  valid_epubs : list Path;
  broken_epubs : list Path
}.

(** A method call on another object [o], made from a method of an object
    of class [O1]: the world is shared, the caller gets the object back
    with the result. *)
Definition call_on {O1 O2 A : Type} (o : O2) (m : M (O2 * world) A)
    : M (O1 * world) (O2 * A) :=
  fun st =>
    match m (o, st.2) with
    | ((o', w'), Return a) => ((st.1, w'), Return (o', a))
    | ((o', w'), Raise e) => ((st.1, w'), Raise e)
    end.

Module Sorter.

Definition __init__ (directory : Path) (isolate_broken : bool) : EpubSorter :=
  {| directory := directory; isolate_broken := isolate_broken;
     valid_epubs := []; broken_epubs := [] |}.

(** [self.valid_epubs.append(p)] *)
Definition append_valid (p : Path) : M (EpubSorter * world) unit :=
  modify (fun st =>
    ({| directory := directory st.1; isolate_broken := isolate_broken st.1;
        valid_epubs := valid_epubs st.1 ++ [p];
        broken_epubs := broken_epubs st.1 |}, st.2)).

(** [self.broken_epubs.append(p)] *)
Definition append_broken (p : Path) : M (EpubSorter * world) unit :=
  modify (fun st =>
    ({| directory := directory st.1; isolate_broken := isolate_broken st.1;
        valid_epubs := valid_epubs st.1;
        broken_epubs := broken_epubs st.1 ++ [p] |}, st.2)).

(** The body of the loop of [_isolate_broken_files].  The test of the
    destination stands before the inner [try]: an error it raises leaves
    the loop. *)
Definition isolate_one (isolation_dir file_path : Path)
    : M (EpubSorter * world) unit :=
  (let destination := isolation_dir ++ [Path_name file_path] in
   taken ← Path_exists_call destination;
   if taken then
     logger_call WARNING
       ("File already exists in isolation folder, skipping: " +:+
        Path_name file_path)
   else
     try_except
       (shutil_move file_path destination ;;
        logger_call INFO ("Moved: " +:+ Path_name file_path))
       (fun e => logger_call ERROR
          ("Failed to move " +:+ Path_name file_path +:+ ": " +:+ exn_str e)))%py.

Definition _isolate_broken_files : M (EpubSorter * world) unit :=
  (st ← get;
   let isolation_dir := directory st.1 ++ ["broken"] in
   try_except
     (Path_mkdir_exist_ok isolation_dir ;;
      logger_call INFO ("Moving broken files to: " +:+ Path_str isolation_dir) ;;
      for_each (broken_epubs st.1) (isolate_one isolation_dir) ;;
      logger_call INFO "")
     (fun e => logger_call ERROR
        ("Failed to create isolation directory: " +:+ exn_str e)))%py.

Definition rule : string := "------------------------------".

Definition _print_summary : M (EpubSorter * world) unit :=
  (st ← get;
   let self := st.1 in
   print rule ;;
   print "Validation Summary" ;;
   print rule ;;
   print ("Total Files Checked: " +:+
          pretty (length (valid_epubs self) + length (broken_epubs self))) ;;
   print ("Valid Files:         " +:+ pretty (length (valid_epubs self))) ;;
   print ("Broken Files:        " +:+ pretty (length (broken_epubs self))) ;;
   (if isolate_broken self && bool_decide (broken_epubs self ≠ [])
    then print ("Moved to:            " +:+ Path_str (directory self ++ ["broken"]))
    else ret tt) ;;
   print rule)%py.

(** The body of the loop of [process]. *)
Definition process_one (file_path : Path) : M (EpubSorter * world) unit :=
  (r ← call_on (Validator.__init__ file_path) Validator.validate;
   let validator := r.1 in
   let is_valid := r.2 in
   if is_valid then append_valid file_path
   else
     append_broken file_path ;;
     logger_call INFO ("[BROKEN] " +:+ Path_name file_path) ;;
     (if negb (is_valid_zip validator)
      then logger_call INFO "  - Invalid ZIP file"
      else ret tt) ;;
     for_each (missing_resources validator)
       (fun error => logger_call INFO ("  - " +:+ error)) ;;
     logger_call INFO "")%py.

Definition newline : string := String "010" EmptyString.

Definition process : M (EpubSorter * world) unit :=
  (st ← get;
   found ← Path_exists_call (directory st.1);
   if negb found then
     logger_call ERROR ("Directory not found: " +:+ Path_str (directory st.1))
   else
     let files := glob_epub st.2 (directory st.1) in
     if bool_decide (files = []) then
       logger_call INFO "No EPUB files found in the specified directory."
     else
       logger_call INFO
         ("Found " +:+ pretty (length files) +:+
          " EPUB files. Starting validation..." +:+ newline) ;;
       for_each files process_one ;;
       st' ← get;
       (if isolate_broken st'.1 && bool_decide (broken_epubs st'.1 ≠ [])
        then _isolate_broken_files
        else ret tt) ;;
       _print_summary)%py.

End Sorter.

(** ** The specification's vocabulary *)

(** A reference is external when it starts with one of the four schemes. *)
Definition external_reference (r : string) : Prop :=
  ∃ scheme rest, scheme ∈ Validator.external_schemes ∧ r = scheme +:+ rest.

(** The resolved target path of reference [r] found in document [d]:
    decode, join to the directory of the document, normalize. *)
Definition resolved_target_path (r d : string) : string :=
  posixpath.normpath
    (posixpath.join (posixpath.dirname d) (urllib.unquote r)).

(** The description of a missing resource. *)
Definition missing_description (target doc : string) : string :=
  "Missing: '" +:+ target +:+ "' (referenced in '" +:+ doc +:+ "')".

(** What verifying a reference against base directory [base_dir] adds to
    the missing list: nothing or one description. *)
Definition verdict_in (src base_dir : string) (all_files : gset string)
    (context_file : string) : list string :=
  if Str.startswith_any src Validator.external_schemes then []
  else
    let target := posixpath.normpath
                    (posixpath.join base_dir (urllib.unquote src)) in
    if bool_decide (target ∈ all_files) then []
    else [missing_description target context_file].

(** The same for reference [r] of document [d]: a function of the
    reference, the document path and the entry set alone. *)
Definition verdict (r d : string) (all_files : gset string) : list string :=
  verdict_in r (posixpath.dirname d) all_files d.

(** The reference of an [img] element: its non-empty [src]. *)
Definition img_reference (t : Tag) : option string :=
  match tag_attrs t !! "src" with
  | Some s => if Str.nonempty s then Some s else None
  | None => None
  end.

(** The reference of an [image] element: its non-empty [xlink:href], or
    else its non-empty [href]. *)
Definition image_reference (t : Tag) : option string :=
  match tag_attrs t !! "xlink:href" with
  | Some s =>
      if Str.nonempty s then Some s
      else match tag_attrs t !! "href" with
           | Some h => if Str.nonempty h then Some h else None
           | None => None
           end
  | None =>
      match tag_attrs t !! "href" with
      | Some h => if Str.nonempty h then Some h else None
      | None => None
      end
  end.

(** The image references of a parsed document, in traversal order. *)
Definition image_references (soup : Soup) : list string :=
  omap img_reference (find_all soup "img")
  ++ omap image_reference (find_all soup "image").

(** What scanning document [d] adds to the missing list. *)
Definition document_verdict (zf : ZipFile) (all_files : gset string)
    (d : string) : list string :=
  if Validator.is_content_document d then
    match open_and_parse zf d with
    | Return soup =>
        flat_map (fun r => verdict r d all_files) (image_references soup)
    | Raise _ => []
    end
  else [].

(** The validator with [l] appended to its missing list. *)
Definition add_missing (l : list string) (v : EpubValidator) : EpubValidator :=
  {| file_path := file_path v;
     missing_resources := missing_resources v ++ l;
     is_valid_zip := is_valid_zip v |}.

(** The archive at [p] opens: [is_zipfile] accepts it and the [ZipFile]
    constructor returns. *)
Definition opens (w : world) (p : Path) : Prop :=
  is_zipfile (file_at w p) = true
  ∧ ∃ zf, ZipFile_open (file_at w p) = Return zf.

(** A step that only appends [l] to the missing list. *)
Definition appends (l : list string) (st : EpubValidator * world)
    : (EpubValidator * world) * result unit :=
  ((add_missing l st.1, st.2), Return tt).

(** The validator with its zip flag cleared. *)
Definition flag_invalid_zip (v : EpubValidator) : EpubValidator :=
  {| file_path := file_path v;
     missing_resources := missing_resources v;
     is_valid_zip := false |}.

(** What a full scan of archive [zf] adds to the missing list. *)
Definition archive_verdict (zf : ZipFile) : list string :=
  let all_files : gset string := list_to_set (namelist zf) in
  flat_map (document_verdict zf all_files) (elements all_files).

(** The archive [zf] with the outcome of reading document [d] replaced. *)
Definition with_document (zf : ZipFile) (d : string) (r : result Soup) : ZipFile :=
  {| namelist := namelist zf;
     open_and_parse := fun n => if String.eqb n d then r else open_and_parse zf n |}.

(** ** Sample archives *)

Definition img_tag (src : string) : Tag :=
  {| tag_name := "img"; tag_attrs := {[ "src" := src ]} |}.

(** An archive with the given entry names in which every document parses
    to the given elements. *)
Definition archive_of (names : list string) (soup : Soup) : ZipFile :=
  {| namelist := names; open_and_parse := fun _ => Return soup |}.

(** An archive in which reading any entry fails with an I/O error. *)
Definition unreadable_archive (names : list string) : ZipFile :=
  {| namelist := names;
     open_and_parse := fun _ => Raise (OtherException "I/O error") |}.

Definition no_errors1 : Path → option string := fun _ => None.
Definition no_errors2 : Path → Path → option (string * gmap Path node) :=
  fun _ _ => None.

(** A world with one file, at [books/book.epub]. *)
Definition one_file_world (f : file) : world :=
  {| fs := {[ ["books"] := Dir; ["books"; "book.epub"] := File f ]};
     log := []; stdout := [];
     mkdir_error := no_errors1; move_error := no_errors2;
     exists_error := no_errors1 |}.

Definition book : Path := ["books"; "book.epub"].

(** Scenario 2: [chapter1.xhtml] shows [pic.jpg], which is not an entry. *)
Definition scenario2_world : world :=
  one_file_world
    {| is_zipfile := true;
       ZipFile_open := Return (archive_of ["chapter1.xhtml"] [img_tag "pic.jpg"]) |}.

(** Two documents that show the same missing image. *)
Definition two_documents : ZipFile :=
  archive_of ["a.xhtml"; "b.xhtml"] [img_tag "x.png"].

(** Scenario 1: the same, with [pic.jpg] among the entries. *)
Definition scenario1_world : world :=
  one_file_world
    {| is_zipfile := true;
       ZipFile_open :=
         Return (archive_of ["chapter1.xhtml"; "pic.jpg"] [img_tag "pic.jpg"]) |}.

(** An archive that opens and whose only document cannot be read. *)
Definition read_error_world : world :=
  one_file_world
    {| is_zipfile := true;
       ZipFile_open := Return (unreadable_archive ["a.xhtml"]) |}.

(** A file that [is_zipfile] accepts and that [ZipFile] fails to open with
    an error other than [BadZipFile]. *)
Definition open_error_world : world :=
  one_file_world
    {| is_zipfile := true;
       ZipFile_open := Raise (OtherException "Permission denied") |}.

(** A file that is no zip archive. *)
Definition not_zip_world : world :=
  one_file_world
    {| is_zipfile := false;
       ZipFile_open := Raise (BadZipFile "File is not a zip file") |}.

(** ** Isolation, step by step *)

(** What happens to one broken archive whose turn of the loop of
    [_isolate_broken_files] runs to its end: the move is skipped, or it
    fails, leaving the file system as it was or as the failed move left
    it, or the archive is moved. *)
Inductive fate : Type :=
  | Skipped
  | Failed (msg : string) (remains : option (gmap Path node))
  | Moved.

Definition fate_of (isolation_dir file_path : Path) (w : world) : fate :=
  let destination := isolation_dir ++ [Path_name file_path] in
  if bool_decide (is_Some (fs w !! destination)) then Skipped
  else match fs w !! file_path with
       | None => Failed (no_such_file_error file_path) None
       | Some n =>
           if decide (file_path `prefix_of` destination) then
             Failed (into_itself_error n file_path destination) None
           else
             match move_error w file_path destination with
             | Some (msg, remains) => Failed msg (Some remains)
             | None => Moved
             end
       end.

Definition fate_record (file_path : Path) (f : fate) : level * string :=
  match f with
  | Skipped =>
      (WARNING, "File already exists in isolation folder, skipping: " +:+
                Path_name file_path)
  | Failed msg _ =>
      (ERROR, "Failed to move " +:+ Path_name file_path +:+ ": " +:+ msg)
  | Moved => (INFO, "Moved: " +:+ Path_name file_path)
  end.

Definition fate_fs (isolation_dir file_path : Path) (f : fate)
    (m : gmap Path node) : gmap Path node :=
  let destination := isolation_dir ++ [Path_name file_path] in
  match f with
  | Moved => rename_tree file_path destination m
  | Failed _ (Some remains) => graft file_path destination remains m
  | _ => m
  end.

(** The world after a turn of the loop that runs to its end. *)
Definition isolate_step (isolation_dir : Path) (w : world) (file_path : Path)
    : world :=
  let f := fate_of isolation_dir file_path w in
  set_log (log w ++ [fate_record file_path f])
    (set_fs (fate_fs isolation_dir file_path f (fs w)) w).

(** The archives whose turn runs to its end: those before the first one
    for which the test of the destination raises. *)
Fixpoint reached (err : Path → option string) (isolation_dir : Path)
    (l : list Path) : list Path :=
  match l with
  | [] => []
  | p :: l' =>
      match err (isolation_dir ++ [Path_name p]) with
      | Some _ => []
      | None => p :: reached err isolation_dir l'
      end
  end.

(** The error that ends the loop, if one does. *)
Fixpoint loop_error (err : Path → option string) (isolation_dir : Path)
    (l : list Path) : option string :=
  match l with
  | [] => None
  | p :: l' =>
      match err (isolation_dir ++ [Path_name p]) with
      | Some msg => Some msg
      | None => loop_error err isolation_dir l'
      end
  end.

(** The world after the loop. *)
Definition isolate_loop (isolation_dir : Path) (l : list Path) (w : world)
    : world :=
  fold_left (isolate_step isolation_dir)
    (reached (exists_error w) isolation_dir l) w.

(** The world after the directory is there: the opening log line, the
    loop, and then the closing log line or the record of the error that
    ended the loop. *)
Definition isolate_from (isolation_dir : Path) (l : list Path) (w : world)
    : world :=
  let w1 := set_log (log w ++ [(INFO, "Moving broken files to: " +:+
                                      Path_str isolation_dir)]) w in
  let w2 := isolate_loop isolation_dir l w1 in
  match loop_error (exists_error w) isolation_dir l with
  | None => set_log (log w2 ++ [(INFO, "")]) w2
  | Some msg =>
      set_log (log w2 ++ [(ERROR, "Failed to create isolation directory: " +:+
                                  msg)]) w2
  end.

(** The error with which [mkdir(exist_ok=True)] fails, if it does. *)
Definition mkdir_refusal (w : world) (p : Path) : option string :=
  match fs w !! p with
  | Some Dir => None
  | Some (File _) => Some (file_exists_error p)
  | None => mkdir_error w p
  end.

(** The world after a [mkdir(exist_ok=True)] that returns. *)
Definition with_directory (w : world) (p : Path) : world :=
  match fs w !! p with
  | Some _ => w
  | None => set_fs (<[p := Dir]> (fs w)) w
  end.

(** The world after [_isolate_broken_files]. *)
Definition isolate_world (s : EpubSorter) (w : world) : world :=
  let isolation_dir := directory s ++ ["broken"] in
  match mkdir_refusal w isolation_dir with
  | Some msg =>
      set_log (log w ++ [(ERROR, "Failed to create isolation directory: " +:+
                                 msg)]) w
  | None =>
      isolate_from isolation_dir (broken_epubs s)
        (with_directory w isolation_dir)
  end.

(** The paths that the turn of an archive may touch: those at and below
    the archive, and those at and below its destination. *)
Definition region (isolation_dir file_path q : Path) : Prop :=
  file_path `prefix_of` q
  ∨ (isolation_dir ++ [Path_name file_path]) `prefix_of` q.

(** ** A sample directory for isolation

    Three broken archives in [books]: [c.epub], whose name is taken in
    [books/broken]; [b.epub], which the system refuses to move, leaving
    it where it is; and [d.epub], which can be moved. *)

Definition not_a_zip : file :=
  {| is_zipfile := false;
     ZipFile_open := Raise (BadZipFile "File is not a zip file") |}.

Definition older_file : file :=
  {| is_zipfile := true;
     ZipFile_open := Return (archive_of ["mimetype"] []) |}.

Definition isolation_world : world :=
  {| fs := {[ ["books"] := Dir;
              ["books"; "broken"] := Dir;
              ["books"; "broken"; "c.epub"] := File older_file;
              ["books"; "c.epub"] := File not_a_zip;
              ["books"; "b.epub"] := File not_a_zip;
              ["books"; "d.epub"] := File not_a_zip ]};
     log := []; stdout := [];
     mkdir_error := no_errors1;
     move_error := fun src _ =>
       if bool_decide (src = ["books"; "b.epub"])
       then Some ("Permission denied",
                  {[ ["books"; "b.epub"] := File not_a_zip ]})
       else None;
     exists_error := no_errors1 |}.

Definition isolation_sorter : EpubSorter :=
  {| directory := ["books"]; isolate_broken := true;
     valid_epubs := [];
     broken_epubs := [["books"; "c.epub"]; ["books"; "b.epub"];
                      ["books"; "d.epub"]] |}.

(** ** More sample data *)

(** Scenario 2 again, in a world with another file, a log and printed
    lines. *)
Definition busy_world : world :=
  {| fs := {[ ["books"] := Dir;
              ["books"; "book.epub"] :=
                File {| is_zipfile := true;
                        ZipFile_open :=
                          Return (archive_of ["chapter1.xhtml"]
                                    [img_tag "pic.jpg"]) |};
              ["books"; "other.epub"] := File not_a_zip ]};
     log := [(INFO, "earlier")]; stdout := ["earlier"];
     mkdir_error := no_errors1; move_error := no_errors2;
     exists_error := no_errors1 |}.

(** An [image] element with the given attributes. *)
Definition image_tag (attrs : gmap string string) : Tag :=
  {| tag_name := "image"; tag_attrs := attrs |}.

(** A cover page whose [image] element carries both attributes. *)
Definition cover_attrs : gmap string string :=
  {[ "xlink:href" := "cover.jpg"; "href" := "gone.jpg" ]}.

Definition cover_archive : ZipFile :=
  archive_of ["cover.xhtml"] [image_tag cover_attrs].

(** The elements of a parsed document at which the scan looks. *)
Definition is_image_element (t : Tag) : Prop :=
  tag_name t = "img" ∨ tag_name t = "image".

(** ** Plain names *)

(** [ '/' in s ] *)
Fixpoint has_sep (s : string) : bool :=
  match s with
  | EmptyString => false
  | String c s' => Str.is_sep c || has_sep s'
  end.

(** A plain name: a non-empty path component other than [.] and [..]. *)
Definition plain_name (s : string) : Prop :=
  s ≠ "" ∧ s ≠ "." ∧ s ≠ ".." ∧ has_sep s = false.

(** ** The run of [process], step by step *)

(** The answer of [validate], called on a fresh validator for the archive
    at [p]. *)
Definition is_valid (w : world) (p : Path) : bool :=
  match (Validator.validate (Validator.__init__ p, w)).2 with
  | Return b => b
  | Raise _ => false
  end.

(** The sorter after the validation loop over [files]. *)
Definition classify (w : world) (files : list Path) (s : EpubSorter)
    : EpubSorter :=
  {| directory := directory s;
     isolate_broken := isolate_broken s;
     valid_epubs :=
       valid_epubs s ++ filter (fun p => is_valid w p = true) files;
     broken_epubs :=
       broken_epubs s ++ filter (fun p => is_valid w p = false) files |}.

(** Two worlds that differ in their logs at most. *)
Definition same_disk (w' w : world) : Prop :=
  fs w' = fs w ∧ stdout w' = stdout w
  ∧ mkdir_error w' = mkdir_error w ∧ move_error w' = move_error w
  ∧ exists_error w' = exists_error w.

(** The lines of the summary. *)
Definition summary_lines (s : EpubSorter) : list string :=
  [Sorter.rule; "Validation Summary"; Sorter.rule;
   "Total Files Checked: " +:+
     pretty (length (valid_epubs s) + length (broken_epubs s));
   "Valid Files:         " +:+ pretty (length (valid_epubs s));
   "Broken Files:        " +:+ pretty (length (broken_epubs s))]
  ++ (if isolate_broken s && bool_decide (broken_epubs s ≠ [])
      then ["Moved to:            " +:+ Path_str (directory s ++ ["broken"])]
      else [])
  ++ [Sorter.rule].

(** A directory in which the system refuses to create anything. *)
Definition refusing_world : world :=
  {| fs := {[ ["books"] := Dir; ["books"; "b.epub"] := File not_a_zip ]};
     log := []; stdout := [];
     mkdir_error := fun _ => Some "[Errno 13] Permission denied: 'books/broken'";
     move_error := no_errors2;
     exists_error := no_errors1 |}.

(** A directory in which a file has the name [broken]. *)
Definition blocked_world : world :=
  {| fs := {[ ["books"] := Dir;
              ["books"; "broken"] := File older_file;
              ["books"; "b.epub"] := File not_a_zip ]};
     log := []; stdout := [];
     mkdir_error := no_errors1;
     move_error := no_errors2;
     exists_error := no_errors1 |}.

(** Three broken archives.  The first stands for one whose name is so
    long that the path of its destination, longer than its own by the
    name of the [broken] directory, is more than the system accepts: the
    test of that destination raises.  The name of the second is taken in
    [broken], and the third could be moved. *)
Definition long_name : string :=
  "a-title-that-goes-on-and-on.epub".

Definition long_name_world : world :=
  {| fs := {[ ["books"] := Dir;
              ["books"; "broken"] := Dir;
              ["books"; "broken"; "c.epub"] := File older_file;
              ["books"; long_name] := File not_a_zip;
              ["books"; "c.epub"] := File not_a_zip;
              ["books"; "d.epub"] := File not_a_zip ]};
     log := []; stdout := [];
     mkdir_error := no_errors1;
     move_error := no_errors2;
     exists_error := fun p =>
       if bool_decide (p = ["books"; "broken"; long_name])
       then Some "[Errno 36] File name too long: 'books/broken/a-title-that-goes-on-and-on.epub'"
       else None |}.

Definition long_name_sorter : EpubSorter :=
  {| directory := ["books"]; isolate_broken := true;
     valid_epubs := [];
     broken_epubs := [["books"; long_name]; ["books"; "c.epub"];
                      ["books"; "d.epub"]] |}.

(** A directory whose name ends in [.epub], with a file in it, and an
    archive that the system fails to move after it has copied it. *)
Definition tree_world : world :=
  {| fs := {[ ["books"] := Dir;
              ["books"; "notes.epub"] := Dir;
              ["books"; "notes.epub"; "page.txt"] := File not_a_zip;
              ["books"; "b.epub"] := File not_a_zip ]};
     log := []; stdout := [];
     mkdir_error := no_errors1;
     move_error := fun src _ =>
       if bool_decide (src = ["books"; "b.epub"])
       then Some ("[Errno 13] Permission denied: 'books/b.epub'",
                  {[ ["books"; "b.epub"] := File not_a_zip;
                     ["books"; "broken"; "b.epub"] := File not_a_zip ]})
       else None;
     exists_error := no_errors1 |}.

(** * Properties *)

(** ** Strings *)

Lemma startswith_spec (s p : string) :
  Str.startswith s p = true ↔ ∃ rest, s = p +:+ rest.
Proof.
  revert s. induction p as [|b p IH]; intros s.
  - split; [intros _; exists s; reflexivity | reflexivity].
  - destruct s as [|a s].
    + split; [done | intros [rest H]; discriminate H].
    + change (Str.startswith (String a s) (String b p))
        with (Ascii.eqb a b && Str.startswith s p).
      rewrite andb_true_iff, IH, Ascii.eqb_eq. split.
      * intros [-> [rest ->]]. exists rest. reflexivity.
      * intros [rest H]. change (String a s = String b (p +:+ rest)) in H.
        injection H as -> ->. split; [done | by exists rest].
Qed.

Lemma external_reference_spec (r : string) :
  Str.startswith_any r Validator.external_schemes = true ↔ external_reference r.
Proof.
  unfold Str.startswith_any, external_reference.
  rewrite existsb_exists. split.
  - intros [scheme [Hin Hs]]. apply startswith_spec in Hs as [rest ->].
    exists scheme, rest. split; [by apply list_elem_of_In | done].
  - intros (scheme & rest & Hin & ->). exists scheme.
    split; [by apply list_elem_of_In | apply startswith_spec; by exists rest].
Qed.

Lemma not_external_reference (r : string) :
  ¬ external_reference r →
  Str.startswith_any r Validator.external_schemes = false.
Proof.
  intros H. apply not_true_is_false. by rewrite external_reference_spec.
Qed.

(** ** The library functions on sample inputs *)

Example dirname_nested : posixpath.dirname "OEBPS/text/ch1.xhtml" = "OEBPS/text".
Proof. reflexivity. Qed.

Example dirname_at_root : posixpath.dirname "index.xhtml" = "".
Proof. reflexivity. Qed.

Example dirname_only_slashes : posixpath.dirname "//a" = "//".
Proof. reflexivity. Qed.

Example join_absolute : posixpath.join "OEBPS" "/x.png" = "/x.png".
Proof. reflexivity. Qed.

Example join_trailing_slash : posixpath.join "OEBPS/" "x.png" = "OEBPS/x.png".
Proof. reflexivity. Qed.

Example normpath_collapses : posixpath.normpath "a/b/../c" = "a/c".
Proof. reflexivity. Qed.

Example normpath_keeps_leading_dotdot :
  posixpath.normpath "../../x/./y//" = "../../x/y".
Proof. reflexivity. Qed.

Example normpath_root_dotdot : posixpath.normpath "/../a" = "/a".
Proof. reflexivity. Qed.

Example normpath_two_slashes : posixpath.normpath "//a/.." = "//".
Proof. reflexivity. Qed.

Example normpath_to_dot : posixpath.normpath "a/.." = ".".
Proof. reflexivity. Qed.

Example unquote_space : urllib.unquote "cover%20page.jpg" = "cover page.jpg".
Proof. reflexivity. Qed.

Example unquote_either_case : urllib.unquote "a%2fb%2Fc" = "a/b/c".
Proof. reflexivity. Qed.

Example unquote_keeps_bad_escapes : urllib.unquote "100%zz%4" = "100%zz%4".
Proof. reflexivity. Qed.

Example unquote_utf8 :
  urllib.unquote "caf%C3%A9" = "caf" +:+ String "195" (String "169" "").
Proof. reflexivity. Qed.

Example unquote_lone_lead_byte :
  urllib.unquote "%C3x" = urllib.replacement +:+ "x".
Proof. reflexivity. Qed.

Example unquote_truncated_sequence :
  urllib.unquote "%E2%82" = urllib.replacement.
Proof. reflexivity. Qed.

Example is_content_document_cases :
  Validator.is_content_document "OEBPS/Ch1.XHTML" = true
  ∧ Validator.is_content_document "toc.htm" = true
  ∧ Validator.is_content_document "cover.html.bak" = false
  ∧ Validator.is_content_document "style.css" = false.
Proof. repeat split. Qed.

(** A reference with an escaped space resolves next to its document, and
    a document at the root has the empty base directory. *)
Example resolved_target_path_cases :
  resolved_target_path "cover%20page.jpg" "OEBPS/cover.xhtml"
  = "OEBPS/cover page.jpg"
  ∧ resolved_target_path "img/a.png" "index.xhtml" = "img/a.png"
  ∧ resolved_target_path "../images/fig1.png" "OEBPS/chapter1.xhtml"
    = "images/fig1.png".
Proof. repeat split. Qed.

(** ** The state of a run *)

Lemma add_missing_nil (v : EpubValidator) : add_missing [] v = v.
Proof. destruct v. unfold add_missing. simpl. by rewrite app_nil_r. Qed.

Lemma add_missing_app (l1 l2 : list string) (v : EpubValidator) :
  add_missing l2 (add_missing l1 v) = add_missing (l1 ++ l2) v.
Proof. unfold add_missing. simpl. by rewrite app_assoc. Qed.

Lemma set_log_same (w : world) : set_log (log w) w = w.
Proof. by destruct w. Qed.

Lemma debug_is_dropped {O : Type} (msg : string) (st : O * world) :
  logger_call DEBUG msg st = (st, Return tt).
Proof.
  destruct st as [o w]. unfold logger_call, modify, log_emit. simpl.
  by rewrite set_log_same.
Qed.

(** ** Running the validator's methods *)

Lemma appends_nil (st : EpubValidator * world) : appends [] st = (st, Return tt).
Proof. destruct st. unfold appends. simpl. by rewrite add_missing_nil. Qed.

Lemma verify_resource_run (src base_dir : string) (all_files : gset string)
    (context_file : string) (st : EpubValidator * world) :
  Validator._verify_resource src base_dir all_files context_file st
  = appends (verdict_in src base_dir all_files context_file) st.
Proof.
  unfold Validator._verify_resource, verdict_in.
  destruct (Str.startswith_any src Validator.external_schemes).
  - by rewrite appends_nil.
  - cbv zeta.
    destruct (decide (posixpath.normpath
                (posixpath.join base_dir (urllib.unquote src)) ∈ all_files))
      as [Hin|Hout].
    + rewrite (bool_decide_eq_false_2 _ (λ H, H Hin)).
      rewrite (bool_decide_eq_true_2 _ Hin). by rewrite appends_nil.
    + rewrite (bool_decide_eq_true_2 _ Hout).
      rewrite (bool_decide_eq_false_2 _ Hout). reflexivity.
Qed.

Lemma for_each_appends {A : Type} (g : A → list string)
    (body : A → M (EpubValidator * world) unit) (l : list A)
    (st : EpubValidator * world) :
  (∀ x st', body x st' = appends (g x) st') →
  for_each l body st = appends (flat_map g l) st.
Proof.
  intros Hbody. revert st. induction l as [|x l IH]; intros st.
  - by rewrite appends_nil.
  - simpl. unfold bind. rewrite Hbody. unfold appends at 1.
    rewrite IH. unfold appends. simpl. by rewrite add_missing_app.
Qed.

Lemma flat_map_omap {A B C : Type} (f : A → option B) (g : B → list C)
    (l : list A) :
  flat_map (fun x => match f x with Some y => g y | None => [] end) l
  = flat_map g (omap f l).
Proof.
  induction l as [|x l IH]; [done|]. simpl.
  destruct (f x); simpl; by rewrite IH.
Qed.

Lemma scan_parsed (zf : ZipFile) (d : string) (all_files : gset string)
    (soup : Soup) (st : EpubValidator * world) :
  open_and_parse zf d = Return soup →
  Validator._scan_file_for_images zf d all_files st
  = appends (flat_map (fun r => verdict r d all_files)
               (image_references soup)) st.
Proof.
  intros Hparse. unfold Validator._scan_file_for_images, try_except, bind, lift.
  rewrite Hparse.
  rewrite (for_each_appends (fun t =>
             match img_reference t with
             | Some r => verdict r d all_files
             | None => []
             end)).
  2:{ intros t st'. unfold img_reference, Tag_get, truthy.
      destruct (tag_attrs t !! "src") as [s|]; [|by rewrite appends_nil].
      destruct (Str.nonempty s); [|by rewrite appends_nil].
      apply verify_resource_run. }
  unfold appends at 1.
  rewrite (for_each_appends (fun t =>
             match image_reference t with
             | Some r => verdict r d all_files
             | None => []
             end)).
  2:{ intros t st'. unfold image_reference, py_or, Tag_get, truthy.
      destruct (tag_attrs t !! "xlink:href") as [s|].
      - destruct (Str.nonempty s) eqn:Hs.
        + rewrite Hs. apply verify_resource_run.
        + destruct (tag_attrs t !! "href") as [h|]; [|by rewrite appends_nil].
          destruct (Str.nonempty h) eqn:Hh; [|by rewrite appends_nil].
          apply verify_resource_run.
      - destruct (tag_attrs t !! "href") as [h|]; [|by rewrite appends_nil].
        destruct (Str.nonempty h) eqn:Hh; [|by rewrite appends_nil].
        apply verify_resource_run. }
  unfold appends. simpl. rewrite add_missing_app.
  unfold image_references. rewrite flat_map_app, !flat_map_omap.
  reflexivity.
Qed.

Lemma scan_raised (zf : ZipFile) (d : string) (all_files : gset string)
    (e : exn) (st : EpubValidator * world) :
  open_and_parse zf d = Raise e →
  Validator._scan_file_for_images zf d all_files st = (st, Return tt).
Proof.
  intros Hparse. unfold Validator._scan_file_for_images, try_except, bind, lift.
  rewrite Hparse. unfold get. apply debug_is_dropped.
Qed.

Lemma check_in_order_run (order : list string) (zf : ZipFile)
    (all_files : gset string) (st : EpubValidator * world) :
  Validator.check_in_order order zf all_files st
  = appends (flat_map (document_verdict zf all_files) order) st.
Proof.
  unfold Validator.check_in_order. apply for_each_appends.
  intros d st'. unfold document_verdict.
  destruct (Validator.is_content_document d); [|by rewrite appends_nil].
  destruct (open_and_parse zf d) as [soup|e] eqn:Hparse.
  - by apply scan_parsed.
  - rewrite appends_nil. by apply scan_raised with e.
Qed.

Lemma validate_not_zip (v : EpubValidator) (w : world) :
  is_zipfile (file_at w (file_path v)) = false →
  Validator.validate (v, w) = ((flag_invalid_zip v, w), Return false).
Proof.
  intros Hz. unfold Validator.validate, bind, get. simpl. rewrite Hz. reflexivity.
Qed.

Lemma validate_bad_zip (v : EpubValidator) (w : world) (msg : string) :
  is_zipfile (file_at w (file_path v)) = true →
  ZipFile_open (file_at w (file_path v)) = Raise (BadZipFile msg) →
  Validator.validate (v, w) = ((flag_invalid_zip v, w), Return false).
Proof.
  intros Hz Hopen. unfold Validator.validate, bind, get, try_except, lift.
  simpl. rewrite Hz, Hopen. reflexivity.
Qed.

Lemma validate_open_error (v : EpubValidator) (w : world) (msg : string) :
  is_zipfile (file_at w (file_path v)) = true →
  ZipFile_open (file_at w (file_path v)) = Raise (OtherException msg) →
  Validator.validate (v, w)
  = ((v, set_log (log w ++ [(ERROR, "Error processing " +:+
                               Path_name (file_path v) +:+ ": " +:+ msg)]) w),
     Return false).
Proof.
  intros Hz Hopen. unfold Validator.validate, bind, get, try_except, lift.
  simpl. rewrite Hz, Hopen. reflexivity.
Qed.

Lemma validate_opened (v : EpubValidator) (w : world) (zf : ZipFile) :
  is_zipfile (file_at w (file_path v)) = true →
  ZipFile_open (file_at w (file_path v)) = Return zf →
  Validator.validate (v, w)
  = ((add_missing (archive_verdict zf) v, w),
     Return (Nat.eqb (length (missing_resources v ++ archive_verdict zf)) 0)).
Proof.
  intros Hz Hopen. unfold Validator.validate, bind, get, try_except, lift.
  simpl. rewrite Hz, Hopen. simpl.
  unfold Validator._check_content_files. rewrite check_in_order_run.
  reflexivity.
Qed.

(** ** The claims about the validator *)

(** C1: [validate] always returns, and it returns true exactly when the
    archive opens as a zip container and the missing list it has
    accumulated is empty. *)
Theorem validate_true_iff_opens_and_nothing_missing
    (v : EpubValidator) (w : world) :
  ∃ b : bool,
    (Validator.validate (v, w)).2 = Return b
    ∧ (b = true ↔
       opens w (file_path v)
       ∧ missing_resources (Validator.validate (v, w)).1.1 = []).
Proof.
  unfold opens.
  destruct (is_zipfile (file_at w (file_path v))) eqn:Hz.
  - destruct (ZipFile_open (file_at w (file_path v))) as [zf|[msg|msg]] eqn:Ho.
    + rewrite (validate_opened v w zf Hz Ho). simpl.
      eexists. split; [reflexivity|].
      rewrite Nat.eqb_eq. split.
      * intros Hlen. split; [split; [done | by exists zf]|].
        by apply nil_length_inv.
      * intros [_ ->]. reflexivity.
    + rewrite (validate_bad_zip v w msg Hz Ho). simpl.
      exists false. split; [done|]. split; [done|].
      intros [[_ [zf Hzf]] _]. discriminate Hzf.
    + rewrite (validate_open_error v w msg Hz Ho). simpl.
      exists false. split; [done|]. split; [done|].
      intros [[_ [zf Hzf]] _]. discriminate Hzf.
  - rewrite (validate_not_zip v w Hz). simpl.
    exists false. split; [done|]. split; [done|].
    intros [[Hf _] _]. discriminate Hf.
Qed.

(** C2: for a reference [r] that is not external, found in document [d],
    the path looked up in the entry set is
    [normpath (join (dirname d) (unquote r))]: the state is left as it is
    when that path is an entry, and a description naming that path is
    appended when it is not.  Scanning a parsed document [d] verifies each
    of its image references in this way, against the directory of [d].
    In particular [../images/fig1.png] in [OEBPS/chapter1.xhtml] resolves
    to [images/fig1.png]. *)
Theorem reference_resolves_to_normalized_join
    (r d : string) (all_files : gset string) (st : EpubValidator * world)
    (Hr : ¬ external_reference r) :
  Validator._verify_resource r (posixpath.dirname d) all_files d st
  = ((add_missing
        (if bool_decide
              (posixpath.normpath
                 (posixpath.join (posixpath.dirname d) (urllib.unquote r))
               ∈ all_files)
         then []
         else [missing_description
                 (posixpath.normpath
                    (posixpath.join (posixpath.dirname d) (urllib.unquote r)))
                 d]) st.1, st.2), Return tt)
  ∧ (∀ (zf : ZipFile) (soup : Soup),
       open_and_parse zf d = Return soup →
       Validator._scan_file_for_images zf d all_files st
       = ((add_missing
             (flat_map (fun r' => verdict_in r' (posixpath.dirname d) all_files d)
                (image_references soup)) st.1, st.2), Return tt))
  ∧ posixpath.normpath
      (posixpath.join (posixpath.dirname "OEBPS/chapter1.xhtml")
         (urllib.unquote "../images/fig1.png")) = "images/fig1.png".
Proof.
  split; [|split; [|reflexivity]].
  - rewrite verify_resource_run. unfold appends, verdict_in.
    by rewrite (not_external_reference r Hr).
  - intros zf soup Hparse. by rewrite (scan_parsed zf d all_files soup st Hparse).
Qed.

Lemma reference_resolves_to_normalized_join_witness :
  ¬ external_reference "../images/fig1.png"
  ∧ Validator._verify_resource "../images/fig1.png"
      (posixpath.dirname "OEBPS/chapter1.xhtml") ∅ "OEBPS/chapter1.xhtml"
      (Validator.__init__ book, scenario2_world)
    = ((add_missing
          ["Missing: 'images/fig1.png' (referenced in 'OEBPS/chapter1.xhtml')"]
          (Validator.__init__ book), scenario2_world), Return tt).
Proof.
  assert (Hr : ¬ external_reference "../images/fig1.png").
  { intros H. apply external_reference_spec in H. discriminate H. }
  split; [exact Hr|].
  exact (proj1 (reference_resolves_to_normalized_join
                  "../images/fig1.png" "OEBPS/chapter1.xhtml" ∅
                  (Validator.__init__ book, scenario2_world) Hr)).
Defined.

(** C3: a reference that starts with [http:], [https:], [data:] or
    [mailto:] is skipped: whatever the base directory, the entry set and
    the state, verifying it changes nothing and appends nothing. *)
Theorem external_reference_is_skipped
    (src base_dir : string) (all_files : gset string) (context_file : string)
    (st : EpubValidator * world)
    (Hext : ∃ scheme rest,
        scheme ∈ ["http:"; "https:"; "data:"; "mailto:"]
        ∧ src = scheme +:+ rest) :
  Validator._verify_resource src base_dir all_files context_file st
  = (st, Return tt).
Proof.
  unfold Validator._verify_resource.
  by rewrite (proj2 (external_reference_spec src) Hext).
Qed.

Lemma external_reference_is_skipped_witness :
  (∃ scheme rest,
      scheme ∈ ["http:"; "https:"; "data:"; "mailto:"]
      ∧ "data:image/png;base64,AAAA" = scheme +:+ rest)
  ∧ Validator._verify_resource "data:image/png;base64,AAAA" "OEBPS"
      {[ "OEBPS/data:image/png;base64,AAAA" ]} "OEBPS/ch1.xhtml"
      (Validator.__init__ book, scenario2_world)
    = ((Validator.__init__ book, scenario2_world), Return tt).
Proof.
  assert (H : ∃ scheme rest,
             scheme ∈ ["http:"; "https:"; "data:"; "mailto:"]
             ∧ "data:image/png;base64,AAAA" = scheme +:+ rest).
  { exists "data:", "image/png;base64,AAAA".
    split; [|reflexivity]. do 2 apply list_elem_of_further. apply list_elem_of_here. }
  split; [exact H|].
  exact (external_reference_is_skipped _ _ _ _ _ H).
Defined.

(** C4: what verifying reference [r] of document [d] against the entry set
    does to any state is to append [verdict r d all_files], a function of
    that triple alone; so two runs on the same triple, from whatever has
    been visited before, add the same entries.  And visiting the documents
    in another order yields the same descriptions, permuted, hence the
    same emptiness of the missing list. *)
Theorem resolution_is_pure_and_order_independent :
  (∀ (r d : string) (all_files : gset string) (st1 st2 : EpubValidator * world),
      Validator._verify_resource r (posixpath.dirname d) all_files d st1
      = ((add_missing (verdict r d all_files) st1.1, st1.2), Return tt)
      ∧ Validator._verify_resource r (posixpath.dirname d) all_files d st2
        = ((add_missing (verdict r d all_files) st2.1, st2.2), Return tt))
  ∧ (∀ (zf : ZipFile) (all_files : gset string) (order1 order2 : list string)
       (p : Path) (w : world),
      order1 ≡ₚ order2 →
      let run1 := Validator.check_in_order order1 zf all_files
                    (Validator.__init__ p, w) in
      let run2 := Validator.check_in_order order2 zf all_files
                    (Validator.__init__ p, w) in
      missing_resources run1.1.1 ≡ₚ missing_resources run2.1.1
      ∧ (missing_resources run1.1.1 = [] ↔ missing_resources run2.1.1 = [])
      ∧ run1.2 = Return tt ∧ run2.2 = Return tt).
Proof.
  split.
  - intros r d all_files st1 st2. split; apply verify_resource_run.
  - intros zf all_files order1 order2 p w Hperm. cbv zeta.
    rewrite !check_in_order_run. unfold appends. simpl.
    assert (Hfm : flat_map (document_verdict zf all_files) order1
                  ≡ₚ flat_map (document_verdict zf all_files) order2)
      by (by apply Permutation_flat_map).
    split; [exact Hfm|]. split; [|done].
    split; intros Hnil; rewrite Hnil in Hfm.
    + symmetry. by apply Permutation_nil_l.
    + by apply Permutation_nil_r in Hfm.
Qed.

Lemma resolution_is_pure_and_order_independent_witness :
  ["a.xhtml"; "b.xhtml"] ≡ₚ ["b.xhtml"; "a.xhtml"]
  ∧ missing_resources
      (Validator.check_in_order ["a.xhtml"; "b.xhtml"] two_documents
         {[ "a.xhtml"; "b.xhtml" ]}
         (Validator.__init__ book, scenario2_world)).1.1
    ≡ₚ missing_resources
         (Validator.check_in_order ["b.xhtml"; "a.xhtml"] two_documents
            {[ "a.xhtml"; "b.xhtml" ]}
            (Validator.__init__ book, scenario2_world)).1.1.
Proof.
  assert (H : ["a.xhtml"; "b.xhtml"] ≡ₚ ["b.xhtml"; "a.xhtml"])
    by apply perm_swap.
  split; [exact H|].
  exact (proj1 (proj2 resolution_is_pure_and_order_independent
                  two_documents {[ "a.xhtml"; "b.xhtml" ]}
                  ["a.xhtml"; "b.xhtml"] ["b.xhtml"; "a.xhtml"]
                  book scenario2_world H)).
Defined.

(** C5: for a file that is no valid zip container ([is_zipfile] rejects it,
    or [ZipFile] raises [BadZipFile] on it) [validate] returns false with
    [is_valid_zip] false and an empty missing list, and leaves the world
    as it was. *)
Theorem invalid_container_is_reported_alone (p : Path) (w : world)
    (Hinvalid : is_zipfile (file_at w p) = false
                ∨ (is_zipfile (file_at w p) = true
                   ∧ ∃ msg, ZipFile_open (file_at w p) = Raise (BadZipFile msg))) :
  Validator.validate (Validator.__init__ p, w)
  = (({| file_path := p; missing_resources := []; is_valid_zip := false |}, w),
     Return false).
Proof.
  destruct Hinvalid as [Hz | [Hz [msg Hopen]]].
  - by rewrite validate_not_zip.
  - by rewrite (validate_bad_zip _ _ msg).
Qed.

Lemma invalid_container_is_reported_alone_witness :
  (is_zipfile (file_at not_zip_world book) = false
   ∨ (is_zipfile (file_at not_zip_world book) = true
      ∧ ∃ msg, ZipFile_open (file_at not_zip_world book)
               = Raise (BadZipFile msg)))
  ∧ Validator.validate (Validator.__init__ book, not_zip_world)
    = (({| file_path := book; missing_resources := [];
           is_valid_zip := false |}, not_zip_world), Return false).
Proof.
  assert (H : is_zipfile (file_at not_zip_world book) = false
              ∨ (is_zipfile (file_at not_zip_world book) = true
                 ∧ ∃ msg, ZipFile_open (file_at not_zip_world book)
                          = Raise (BadZipFile msg))).
  { left. vm_compute. reflexivity. }
  split; [exact H|].
  exact (invalid_container_is_reported_alone book not_zip_world H).
Defined.

(** C6, as stated, fails: an archive that opens and whose content document
    cannot be read is not reported invalid. *)
Lemma read_error_does_not_invalidate :
  ¬ (∀ (p : Path) (w : world) (zf : ZipFile) (d msg : string),
       is_zipfile (file_at w p) = true →
       ZipFile_open (file_at w p) = Return zf →
       d ∈ namelist zf →
       Validator.is_content_document d = true →
       open_and_parse zf d = Raise (OtherException msg) →
       (Validator.validate (Validator.__init__ p, w)).2 = Return false
       ∧ missing_resources (Validator.validate (Validator.__init__ p, w)).1.1
         = []).
Proof.
  intros H.
  destruct (H book read_error_world (unreadable_archive ["a.xhtml"])
              "a.xhtml" "I/O error") as [Hfalse _].
  - reflexivity.
  - reflexivity.
  - apply list_elem_of_here.
  - reflexivity.
  - reflexivity.
  - vm_compute in Hfalse. discriminate Hfalse.
Qed.

(** C6, amended: an error other than [BadZipFile] raised when the archive
    is opened, after [is_zipfile] has accepted it, aborts validation:
    [validate] returns false, records no missing resource, leaves
    [is_valid_zip] true and logs the error.  An error raised while a
    content document is read or parsed does not abort anything: the
    document is skipped and the state is what it was. *)
Theorem open_error_aborts_and_read_error_is_swallowed
    (p : Path) (w : world) (msg : string)
    (Hz : is_zipfile (file_at w p) = true)
    (Hopen : ZipFile_open (file_at w p) = Raise (OtherException msg)) :
  Validator.validate (Validator.__init__ p, w)
  = (({| file_path := p; missing_resources := []; is_valid_zip := true |},
      set_log (log w ++ [(ERROR, "Error processing " +:+ Path_name p +:+
                                  ": " +:+ msg)]) w),
     Return false)
  ∧ (∀ (zf : ZipFile) (d : string) (all_files : gset string) (e : exn)
       (st : EpubValidator * world),
       open_and_parse zf d = Raise e →
       Validator._scan_file_for_images zf d all_files st = (st, Return tt)).
Proof.
  split.
  - by rewrite (validate_open_error _ _ msg).
  - intros zf d all_files e st He. by apply scan_raised with e.
Qed.

Lemma open_error_aborts_and_read_error_is_swallowed_witness :
  is_zipfile (file_at open_error_world book) = true
  ∧ ZipFile_open (file_at open_error_world book)
    = Raise (OtherException "Permission denied")
  ∧ Validator.validate (Validator.__init__ book, open_error_world)
    = (({| file_path := book; missing_resources := [];
           is_valid_zip := true |},
        set_log [(ERROR, "Error processing book.epub: Permission denied")]
          open_error_world),
       Return false).
Proof.
  assert (Hz : is_zipfile (file_at open_error_world book) = true)
    by reflexivity.
  assert (Ho : ZipFile_open (file_at open_error_world book)
               = Raise (OtherException "Permission denied")) by reflexivity.
  split; [exact Hz|]. split; [exact Ho|].
  exact (proj1 (open_error_aborts_and_read_error_is_swallowed
                  book open_error_world "Permission denied" Hz Ho)).
Defined.

Lemma flat_map_skip {A B : Type} (f : A → list B) (P : A → Prop)
    `{!∀ x, Decision (P x)} (l : list A) :
  (∀ x, ¬ P x → f x = []) →
  flat_map f l = flat_map f (filter P l).
Proof.
  intros Hskip. induction l as [|x l IH]; [done|].
  rewrite filter_cons. destruct (decide (P x)) as [HP|HP]; simpl.
  - by rewrite IH.
  - by rewrite (Hskip x HP), IH.
Qed.

(** C7: a content document [d] that fails to parse is skipped.  Scanning
    it returns normally and leaves the state as it was; the loop over the
    documents goes on as if [d] were not in it; and [validate] gives what
    the other documents alone give, so the failure by itself adds no
    missing resource and does not make the archive invalid. *)
Theorem parse_failure_is_skipped
    (zf : ZipFile) (d : string) (e : exn)
    (Hfail : open_and_parse zf d = Raise e) :
  (∀ (all_files : gset string) (st : EpubValidator * world),
      Validator._scan_file_for_images zf d all_files st = (st, Return tt))
  ∧ (∀ (all_files : gset string) (before after : list string)
       (st : EpubValidator * world),
      Validator.check_in_order (before ++ d :: after) zf all_files st
      = Validator.check_in_order (before ++ after) zf all_files st)
  ∧ (∀ (p : Path) (w : world),
      is_zipfile (file_at w p) = true →
      ZipFile_open (file_at w p) = Return zf →
      let all_files : gset string := list_to_set (namelist zf) in
      let others := filter (fun n => n ≠ d) (elements all_files) in
      let missing := flat_map (document_verdict zf all_files) others in
      Validator.validate (Validator.__init__ p, w)
      = (({| file_path := p; missing_resources := missing;
             is_valid_zip := true |}, w),
         Return (bool_decide (missing = [])))).
Proof.
  assert (Hd : ∀ all_files, document_verdict zf all_files d = []).
  { intros all_files. unfold document_verdict. rewrite Hfail.
    by destruct (Validator.is_content_document d). }
  split; [|split].
  - intros all_files st. by apply scan_raised with e.
  - intros all_files before after st. rewrite !check_in_order_run.
    rewrite !flat_map_app. simpl. by rewrite Hd.
  - intros p w Hz Hopen. cbv zeta.
    rewrite (validate_opened (Validator.__init__ p) w zf Hz Hopen).
    unfold archive_verdict.
    rewrite <- (flat_map_skip (document_verdict zf (list_to_set (namelist zf)))
                  (fun n => n ≠ d)).
    2:{ intros x Hx. apply dec_stable in Hx. subst x. apply Hd. }
    unfold add_missing. simpl. do 3 f_equal.
    destruct (flat_map _ _); reflexivity.
Qed.

Lemma parse_failure_is_skipped_witness :
  open_and_parse (unreadable_archive ["a.xhtml"]) "a.xhtml"
  = Raise (OtherException "I/O error")
  ∧ Validator.validate (Validator.__init__ book, read_error_world)
    = ((Validator.__init__ book, read_error_world), Return true).
Proof.
  assert (H : open_and_parse (unreadable_archive ["a.xhtml"]) "a.xhtml"
              = Raise (OtherException "I/O error")) by reflexivity.
  split; [exact H|].
  exact (proj2 (proj2 (parse_failure_is_skipped _ _ _ H))
           book read_error_world eq_refl eq_refl).
Defined.

(** C8: when the resolved target path is not an entry of the archive, one
    description [Missing: '<target>' (referenced in '<document>')] is
    appended to the missing list, and nothing else changes.  In scenario 2
    the missing list is the single entry
    [Missing: 'pic.jpg' (referenced in 'chapter1.xhtml')]. *)
Theorem missing_target_appends_one_description
    (src base_dir : string) (all_files : gset string) (context_file : string)
    (st : EpubValidator * world)
    (Hsrc : ¬ external_reference src)
    (Hmissing : posixpath.normpath
                  (posixpath.join base_dir (urllib.unquote src)) ∉ all_files) :
  Validator._verify_resource src base_dir all_files context_file st
  = (({| file_path := file_path st.1;
         missing_resources :=
           missing_resources st.1 ++
           ["Missing: '" +:+
            posixpath.normpath (posixpath.join base_dir (urllib.unquote src))
            +:+ "' (referenced in '" +:+ context_file +:+ "')"];
         is_valid_zip := is_valid_zip st.1 |}, st.2), Return tt)
  ∧ Validator.validate (Validator.__init__ book, scenario2_world)
    = (({| file_path := book;
           missing_resources :=
             ["Missing: 'pic.jpg' (referenced in 'chapter1.xhtml')"];
           is_valid_zip := true |}, scenario2_world), Return false).
Proof.
  split; [|vm_compute; reflexivity].
  rewrite verify_resource_run. unfold appends, verdict_in.
  rewrite (not_external_reference src Hsrc). cbv zeta.
  by rewrite (bool_decide_eq_false_2 _ Hmissing).
Qed.

Lemma missing_target_appends_one_description_witness :
  ¬ external_reference "pic.jpg"
  ∧ (posixpath.normpath (posixpath.join "" (urllib.unquote "pic.jpg"))
     ∉ ({[ "chapter1.xhtml" ]} : gset string))
  ∧ Validator._verify_resource "pic.jpg" "" {[ "chapter1.xhtml" ]}
      "chapter1.xhtml" (Validator.__init__ book, scenario2_world)
    = (({| file_path := book;
           missing_resources :=
             ["Missing: 'pic.jpg' (referenced in 'chapter1.xhtml')"];
           is_valid_zip := true |}, scenario2_world), Return tt).
Proof.
  assert (H1 : ¬ external_reference "pic.jpg").
  { intros H. apply external_reference_spec in H. discriminate H. }
  assert (H2 : posixpath.normpath (posixpath.join "" (urllib.unquote "pic.jpg"))
               ∉ ({[ "chapter1.xhtml" ]} : gset string)).
  { intros H. apply elem_of_singleton in H. discriminate H. }
  split; [exact H1|]. split; [exact H2|].
  exact (proj1 (missing_target_appends_one_description
                  "pic.jpg" "" {[ "chapter1.xhtml" ]} "chapter1.xhtml"
                  (Validator.__init__ book, scenario2_world) H1 H2)).
Defined.

(** C10: the scheme test looks at the raw reference.  A reference that
    does not start with one of the four schemes, but does once decoded, is
    not skipped: it is decoded and resolved against the base directory,
    and a description is appended when the resulting path is not an
    entry. *)
Theorem scheme_test_precedes_decoding
    (src base_dir : string) (all_files : gset string) (context_file : string)
    (st : EpubValidator * world)
    (Hraw : ¬ external_reference src)
    (Hdecoded : external_reference (urllib.unquote src)) :
  Validator._verify_resource src base_dir all_files context_file st
  = ((add_missing
        (if bool_decide
              (posixpath.normpath
                 (posixpath.join base_dir (urllib.unquote src)) ∈ all_files)
         then []
         else ["Missing: '" +:+
               posixpath.normpath
                 (posixpath.join base_dir (urllib.unquote src))
               +:+ "' (referenced in '" +:+ context_file +:+ "')"])
        st.1, st.2), Return tt).
Proof.
  rewrite verify_resource_run. unfold appends, verdict_in.
  by rewrite (not_external_reference src Hraw).
Qed.

Lemma scheme_test_precedes_decoding_witness :
  ¬ external_reference "http%3A//host/img.png"
  ∧ external_reference (urllib.unquote "http%3A//host/img.png")
  ∧ Validator._verify_resource "http%3A//host/img.png" "OEBPS"
      {[ "OEBPS/ch1.xhtml" ]} "OEBPS/ch1.xhtml"
      (Validator.__init__ book, scenario2_world)
    = ((add_missing
          ["Missing: 'OEBPS/http:/host/img.png' (referenced in 'OEBPS/ch1.xhtml')"]
          (Validator.__init__ book), scenario2_world), Return tt).
Proof.
  assert (H1 : ¬ external_reference "http%3A//host/img.png").
  { intros H. apply external_reference_spec in H. discriminate H. }
  assert (H2 : external_reference (urllib.unquote "http%3A//host/img.png")).
  { apply external_reference_spec. reflexivity. }
  split; [exact H1|]. split; [exact H2|].
  exact (scheme_test_precedes_decoding "http%3A//host/img.png" "OEBPS"
           {[ "OEBPS/ch1.xhtml" ]} "OEBPS/ch1.xhtml"
           (Validator.__init__ book, scenario2_world) H1 H2).
Defined.

(** ** The file system under a move *)

Lemma graft_lookup (src dst : Path) (remains m : gmap Path node) (k : Path) :
  graft src dst remains m !! k
  = if decide (src `prefix_of` k ∨ dst `prefix_of` k)
    then remains !! k else m !! k.
Proof.
  unfold graft. rewrite lookup_union, !map_lookup_filter. cbn [fst].
  destruct (decide (src `prefix_of` k ∨ dst `prefix_of` k)) as [H|H].
  - destruct (m !! k) as [n|]; simpl.
    + rewrite (option_guard_False (¬ _)) by (intros H'; by apply H'). simpl.
      destruct (remains !! k); simpl; [|done].
      by rewrite option_guard_True.
    + destruct (remains !! k); simpl; [|done]. by rewrite option_guard_True.
  - destruct (remains !! k) as [n|]; simpl.
    + rewrite option_guard_False by done. simpl.
      destruct (m !! k); simpl; [|done]. by rewrite option_guard_True.
    + destruct (m !! k); simpl; [|done]. by rewrite option_guard_True.
Qed.

Lemma moved_tree_lookup (src dst : Path) (m : gmap Path node)
    (k : Path) (n : node) :
  moved_tree src dst m !! k = Some n
  ↔ ∃ rel, k = dst ++ rel ∧ m !! (src ++ rel) = Some n.
Proof.
  unfold moved_tree, moved_keys. rewrite lookup_set_to_map.
  - split.
    + intros (y & Hy & Heq). apply elem_of_filter in Hy as [[rel ->] Hdom].
      rewrite drop_app_length in Heq. injection Heq as <- Hn.
      exists rel. split; [done|].
      apply elem_of_dom in Hdom as [n' Hn']. rewrite Hn' in Hn |- *.
      by simpl in Hn; subst.
    + intros (rel & -> & Hn). exists (src ++ rel). split.
      * apply elem_of_filter. split; [by apply prefix_app_r|].
        apply elem_of_dom. by eexists.
      * by rewrite drop_app_length, Hn.
  - intros y y' Hy Hy'. apply elem_of_filter in Hy as [[r ->] _].
    apply elem_of_filter in Hy' as [[r' ->] _]. simpl.
    rewrite !drop_app_length. intros Heq. by apply app_inv_head in Heq as ->.
Qed.

(** What was at or below the source is found at the same place below the
    destination. *)
Lemma rename_tree_moved (src dst : Path) (m : gmap Path node) (rel : Path) :
  rename_tree src dst m !! (dst ++ rel) = m !! (src ++ rel).
Proof.
  unfold rename_tree. rewrite lookup_union, map_lookup_filter. cbn [fst].
  assert (Hnone : (m !! (dst ++ rel) ≫= fun x : node =>
            guard (¬ src `prefix_of` dst ++ rel ∧ ¬ dst `prefix_of` dst ++ rel)
            ≫= fun _ => Some x) = None).
  { destruct (m !! (dst ++ rel)); simpl; [|done].
    rewrite option_guard_False; [done|].
    intros [_ H]. apply H. by apply prefix_app_r. }
  rewrite Hnone.
  destruct (m !! (src ++ rel)) as [n|] eqn:Hsrc.
  - assert (H : moved_tree src dst m !! (dst ++ rel) = Some n).
    { apply moved_tree_lookup. by exists rel. }
    by rewrite H.
  - destruct (moved_tree src dst m !! (dst ++ rel)) as [n|] eqn:H; [|done].
    apply moved_tree_lookup in H as (r & Hk & Hn).
    apply app_inv_head in Hk as <-. congruence.
Qed.

(** Nothing is left at or below the source, and every other path outside
    the destination holds what it held. *)
Lemma rename_tree_other (src dst : Path) (m : gmap Path node) (k : Path) :
  ¬ dst `prefix_of` k →
  rename_tree src dst m !! k
  = if decide (src `prefix_of` k) then None else m !! k.
Proof.
  intros Hdst. unfold rename_tree. rewrite lookup_union, map_lookup_filter.
  cbn [fst].
  destruct (moved_tree src dst m !! k) as [n|] eqn:H.
  { apply moved_tree_lookup in H as (r & -> & _).
    destruct Hdst. by apply prefix_app_r. }
  destruct (decide (src `prefix_of` k)) as [Hs|Hs].
  - destruct (m !! k); simpl; [|done].
    rewrite option_guard_False; [done|]. by intros [H' _].
  - destruct (m !! k); simpl; [|done]. by rewrite option_guard_True.
Qed.

(** ** Running the sorter's isolation *)

Lemma set_fs_same (w : world) : set_fs (fs w) w = w.
Proof. by destruct w. Qed.

Lemma isolate_one_run (dir p : Path) (s : EpubSorter) (w : world) :
  Sorter.isolate_one dir p (s, w)
  = match exists_error w (dir ++ [Path_name p]) with
    | Some msg => ((s, w), Raise (OtherException msg))
    | None => ((s, isolate_step dir w p), Return tt)
    end.
Proof.
  unfold Sorter.isolate_one, bind, Path_exists_call, Path_exists_outcome.
  cbn [fst snd].
  destruct (exists_error w (dir ++ [Path_name p])) as [msg|]; [done|].
  unfold isolate_step, fate_of.
  destruct (bool_decide (is_Some (fs w !! (dir ++ [Path_name p])))).
  - unfold logger_call, modify. simpl. by rewrite set_fs_same.
  - unfold try_except, bind, shutil_move. cbn [fst snd].
    destruct (fs w !! p) as [n|].
    + destruct (decide (p `prefix_of` dir ++ [Path_name p])).
      * unfold logger_call, modify. simpl. by rewrite set_fs_same.
      * destruct (move_error w p (dir ++ [Path_name p])) as [[msg remains]|].
        -- reflexivity.
        -- reflexivity.
    + unfold logger_call, modify. simpl. by rewrite set_fs_same.
Qed.

Lemma isolate_loop_run (dir : Path) (l : list Path) (s : EpubSorter) (w : world) :
  for_each l (Sorter.isolate_one dir) (s, w)
  = ((s, isolate_loop dir l w),
     match loop_error (exists_error w) dir l with
     | Some msg => Raise (OtherException msg)
     | None => Return tt
     end).
Proof.
  revert w. induction l as [|p l IH]; intros w; [done|].
  cbn [for_each]. unfold bind. rewrite isolate_one_run.
  unfold isolate_loop. cbn [reached loop_error].
  destruct (exists_error w (dir ++ [Path_name p])) as [msg|]; [done|].
  rewrite IH. reflexivity.
Qed.

Lemma isolate_broken_files_run (s : EpubSorter) (w : world) :
  Sorter._isolate_broken_files (s, w) = ((s, isolate_world s w), Return tt).
Proof.
  unfold Sorter._isolate_broken_files, isolate_world, mkdir_refusal,
    with_directory, bind, get, try_except.
  cbn [fst snd]. unfold Path_mkdir_exist_ok. cbn [fst snd].
  destruct (fs w !! (directory s ++ ["broken"])) as [[f|]|].
  - reflexivity.
  - unfold logger_call at 1, modify at 1. cbn [fst snd].
    rewrite isolate_loop_run. unfold isolate_from. cbn [exists_error set_log].
    by destruct (loop_error (exists_error w) (directory s ++ ["broken"])
                   (broken_epubs s)).
  - destruct (mkdir_error w (directory s ++ ["broken"])) as [msg|].
    + reflexivity.
    + unfold logger_call at 1, modify at 1. cbn [fst snd].
      rewrite isolate_loop_run. unfold isolate_from.
      cbn [exists_error set_log set_fs].
      by destruct (loop_error (exists_error w) (directory s ++ ["broken"])
                     (broken_epubs s)).
Qed.

(** The loop stops at the first archive for which the test of the
    destination raises: the archives reached are the list up to there. *)
Lemma reached_prefix (err : Path → option string) (dir : Path) (l : list Path) :
  reached err dir l `prefix_of` l.
Proof.
  induction l as [|p l IH]; [done|]. simpl.
  destruct (err (dir ++ [Path_name p])).
  - apply prefix_nil.
  - by apply prefix_cons.
Qed.


Section isolation_loop.

Variable dir : Path.

Lemma region_source (p : Path) : region dir p p.
Proof. by left. Qed.

Lemma region_destination (p : Path) : region dir p (dir ++ [Path_name p]).
Proof. by right. Qed.

(** What a turn does is decided by what is at the source and at the
    destination. *)
Lemma fate_local (w1 w : world) (p : Path) :
  fs w1 !! p = fs w !! p →
  fs w1 !! (dir ++ [Path_name p]) = fs w !! (dir ++ [Path_name p]) →
  move_error w1 = move_error w →
  fate_of dir p w1 = fate_of dir p w.
Proof.
  intros Hp Hd He. unfold fate_of. by rewrite Hp, Hd, He.
Qed.

(** A turn touches the region of its archive only. *)
Lemma fate_fs_frame (f : fate) (m : gmap Path node) (p q : Path) :
  ¬ region dir p q → fate_fs dir p f m !! q = m !! q.
Proof.
  intros Hq. destruct f as [|msg [remains|]|]; unfold fate_fs; [done| |done|].
  - rewrite graft_lookup. by rewrite decide_False.
  - rewrite rename_tree_other by (intros H; apply Hq; by right).
    rewrite decide_False; [done|]. intros H. apply Hq. by left.
Qed.

(** What it leaves in the region depends on what was there only. *)
Lemma fate_fs_local (f : fate) (m1 m2 : gmap Path node) (p : Path) :
  (∀ q, region dir p q → m1 !! q = m2 !! q) →
  ∀ q, region dir p q → fate_fs dir p f m1 !! q = fate_fs dir p f m2 !! q.
Proof.
  intros Hagree q Hq.
  destruct f as [|msg [remains|]|]; unfold fate_fs; [by apply Hagree| |by apply Hagree|].
  - rewrite !graft_lookup. by rewrite !decide_True by exact Hq.
  - destruct (decide ((dir ++ [Path_name p]) `prefix_of` q)) as [[rel ->]|Hd].
    + rewrite !rename_tree_moved. apply Hagree. left. by apply prefix_app_r.
    + rewrite !rename_tree_other by done.
      destruct (decide (p `prefix_of` q)); [done|]. by apply Hagree.
Qed.

Lemma step_frame (w : world) (p q : Path) :
  ¬ region dir p q → fs (isolate_step dir w p) !! q = fs w !! q.
Proof. intros Hq. unfold isolate_step. cbn [fs set_log set_fs]. by apply fate_fs_frame. Qed.

Lemma steps_frame (l : list Path) (w : world) (q : Path) :
  (∀ a, a ∈ l → ¬ region dir a q) →
  fs (fold_left (isolate_step dir) l w) !! q = fs w !! q.
Proof.
  revert w. induction l as [|a l IH]; intros w Hq; [done|].
  cbn [fold_left]. rewrite IH.
  - apply step_frame, Hq, list_elem_of_here.
  - intros a' Ha'. by apply Hq, list_elem_of_further.
Qed.

Lemma steps_log (l : list Path) (w : world) (x : level * string) :
  x ∈ log w → x ∈ log (fold_left (isolate_step dir) l w).
Proof.
  revert w. induction l as [|a l IH]; intros w Hx; [done|].
  cbn [fold_left]. apply IH. unfold isolate_step. cbn [log set_log].
  apply elem_of_app. by left.
Qed.

Lemma steps_stdout (l : list Path) (w : world) :
  stdout (fold_left (isolate_step dir) l w) = stdout w.
Proof.
  revert w. induction l as [|a l IH]; intros w; [done|].
  cbn [fold_left]. by rewrite IH.
Qed.

Lemma steps_move_error (l : list Path) (w : world) :
  move_error (fold_left (isolate_step dir) l w) = move_error w.
Proof.
  revert w. induction l as [|a l IH]; intros w; [done|].
  cbn [fold_left]. by rewrite IH.
Qed.

Lemma steps_exists_error (l : list Path) (w : world) :
  exists_error (fold_left (isolate_step dir) l w) = exists_error w.
Proof.
  revert w. induction l as [|a l IH]; intros w; [done|].
  cbn [fold_left]. by rewrite IH.
Qed.

(** The fate of an archive is decided by its own turn of the loop: the
    turns of the other archives neither touch its region nor change what
    its turn does. *)
Lemma steps_region (l : list Path) (w : world) (p : Path) :
  NoDup l → p ∈ l →
  (∀ a b q, a ∈ l → b ∈ l → a ≠ b → region dir a q → region dir b q → False) →
  (∀ q, region dir p q →
        fs (fold_left (isolate_step dir) l w) !! q
        = fs (isolate_step dir w p) !! q)
  ∧ fate_record p (fate_of dir p w) ∈ log (fold_left (isolate_step dir) l w).
Proof.
  revert w. induction l as [|a l IH]; intros w Hnd Hp Hdisj.
  { by apply elem_of_nil in Hp. }
  apply NoDup_cons in Hnd as [Hal Hnd].
  assert (Hdisj' : ∀ a b q, a ∈ l → b ∈ l → a ≠ b →
                     region dir a q → region dir b q → False).
  { intros a' b' q Ha' Hb'. apply Hdisj; by apply list_elem_of_further. }
  cbn [fold_left].
  destruct (decide (a = p)) as [->|Hap].
  - split.
    + intros q Hq. apply steps_frame. intros a Ha Hra.
      apply (Hdisj a p q); [by apply list_elem_of_further
                           |apply list_elem_of_here | |done|done].
      intros ->. by apply Hal.
    + apply steps_log. unfold isolate_step. cbn [log set_log].
      apply elem_of_app. right. apply list_elem_of_here.
  - apply elem_of_cons in Hp as [Hp|Hp]; [congruence|].
    assert (Happ : ∀ q, region dir p q →
                     fs (isolate_step dir w a) !! q = fs w !! q).
    { intros q Hq. apply step_frame. intros Ha.
      apply (Hdisj a p q); [apply list_elem_of_here
                           |by apply list_elem_of_further|done|done|done]. }
    assert (Hfate : fate_of dir p (isolate_step dir w a) = fate_of dir p w).
    { apply fate_local.
      - apply Happ, region_source.
      - apply Happ, region_destination.
      - reflexivity. }
    destruct (IH (isolate_step dir w a) Hnd Hp Hdisj') as [H1 H2].
    rewrite Hfate in H2. split; [|exact H2].
    intros q Hq. rewrite (H1 q Hq).
    unfold isolate_step at 1 3. cbn [fs set_log set_fs]. rewrite Hfate.
    by apply fate_fs_local.
Qed.

End isolation_loop.

(** ** Sources and destinations

    Sources are entries of the scanned directory, destinations entries of
    its [broken] subdirectory.  No source is called [broken]: the name of
    a matched entry ends in [.epub]. *)

Lemma source_not_above_destination (directory : Path) (x y : string) :
  x ≠ "broken" →
  ¬ (directory ++ [x]) `prefix_of` (directory ++ ["broken"]) ++ [y].
Proof.
  intros Hx H. rewrite <- app_assoc in H. apply prefix_app_inv in H.
  simpl in H. by apply prefix_cons_inv_1 in H.
Qed.

Lemma destination_not_above_source (directory : Path) (x y : string) :
  ¬ ((directory ++ ["broken"]) ++ [y]) `prefix_of` directory ++ [x].
Proof.
  intros H. apply prefix_length in H. rewrite !length_app in H.
  simpl in H. lia.
Qed.

(** Nothing lies both below a source and below a destination. *)
Lemma source_apart_from_destination (directory : Path) (x y : string) (q : Path) :
  x ≠ "broken" →
  (directory ++ [x]) `prefix_of` q →
  ((directory ++ ["broken"]) ++ [y]) `prefix_of` q →
  False.
Proof.
  intros Hx H1 H2. destruct (prefix_weak_total _ _ _ H1 H2) as [H|H].
  - by apply source_not_above_destination in H.
  - by apply destination_not_above_source in H.
Qed.

Lemma same_length_prefixes {A : Type} (l1 l2 q : list A) :
  length l1 = length l2 → l1 `prefix_of` q → l2 `prefix_of` q → l1 = l2.
Proof.
  intros Hlen H1 H2. destruct (prefix_weak_total _ _ _ H1 H2) as [H|H].
  - apply prefix_length_eq; [done|lia].
  - symmetry. apply prefix_length_eq; [done|lia].
Qed.

(** The regions of two archives of the directory are disjoint. *)
Lemma regions_disjoint (directory : Path) (a b q : Path) :
  a = directory ++ [Path_name a] → Path_name a ≠ "broken" →
  b = directory ++ [Path_name b] → Path_name b ≠ "broken" →
  a ≠ b →
  region (directory ++ ["broken"]) a q →
  region (directory ++ ["broken"]) b q →
  False.
Proof.
  unfold region.
  remember (Path_name a) as x eqn:Ex. remember (Path_name b) as y eqn:Ey.
  clear Ex Ey. intros -> Hx -> Hy Hab [Ha|Ha] [Hb|Hb].
  - apply Hab. apply (same_length_prefixes _ _ q); [|done|done].
    by rewrite !length_app.
  - by apply (source_apart_from_destination directory x y q).
  - by apply (source_apart_from_destination directory y x q).
  - apply Hab. f_equal.
    assert (H : (directory ++ ["broken"]) ++ [x]
                = (directory ++ ["broken"]) ++ [y]).
    { apply (same_length_prefixes _ _ q); [|done|done].
      by rewrite !length_app. }
    apply app_inv_head in H. done.
Qed.

(** The [broken] directory itself lies in the region of no archive. *)
Lemma isolation_dir_outside (directory : Path) (p : Path) :
  p = directory ++ [Path_name p] → Path_name p ≠ "broken" →
  ¬ region (directory ++ ["broken"]) p (directory ++ ["broken"]).
Proof.
  unfold region. remember (Path_name p) as x eqn:Ex. clear Ex.
  intros -> Hx [H|H].
  - apply Hx. apply prefix_app_inv in H. by apply prefix_cons_inv_1 in H.
  - by apply prefix_snoc_not in H.
Qed.

(** ** After the loop *)

Section isolation_of_a_directory.

Variable directory : Path.
Variable l : list Path.
Hypothesis Hglob :
  ∀ p, p ∈ l → p = directory ++ [Path_name p] ∧ Path_name p ≠ "broken".
Hypothesis Hnodup : NoDup l.

Lemma archives_disjoint (a b q : Path) :
  a ∈ l → b ∈ l → a ≠ b →
  region (directory ++ ["broken"]) a q →
  region (directory ++ ["broken"]) b q →
  False.
Proof.
  intros Ha Hb. destruct (Hglob a Ha), (Hglob b Hb).
  by apply regions_disjoint.
Qed.

Lemma reached_elem (w : world) (p : Path) :
  p ∈ reached (exists_error w) (directory ++ ["broken"]) l → p ∈ l.
Proof. intros Hp. eapply elem_of_prefix; [exact Hp|apply reached_prefix]. Qed.

Lemma reached_NoDup (w : world) :
  NoDup (reached (exists_error w) (directory ++ ["broken"]) l).
Proof.
  destruct (reached_prefix (exists_error w) (directory ++ ["broken"]) l)
    as [k Hk].
  rewrite Hk in Hnodup. by apply NoDup_app in Hnodup as [? _].
Qed.

(** An archive reached by the loop meets its own fate. *)
Lemma isolate_from_region (w : world) (p : Path) :
  p ∈ reached (exists_error w) (directory ++ ["broken"]) l →
  (∀ q, region (directory ++ ["broken"]) p q →
        fs (isolate_from (directory ++ ["broken"]) l w) !! q
        = fs (isolate_step (directory ++ ["broken"]) w p) !! q)
  ∧ fate_record p (fate_of (directory ++ ["broken"]) p w)
    ∈ log (isolate_from (directory ++ ["broken"]) l w).
Proof.
  intros Hp. unfold isolate_from, isolate_loop.
  set (w1 := set_log _ w).
  destruct (steps_region (directory ++ ["broken"])
              (reached (exists_error w) (directory ++ ["broken"]) l) w1 p
              (reached_NoDup w) Hp) as [H1 H2].
  { intros a b q Ha Hb. apply archives_disjoint; by apply (reached_elem w). }
  change (exists_error w1) with (exists_error w).
  split.
  - intros q Hq.
    destruct (loop_error (exists_error w) (directory ++ ["broken"]) l);
      cbn [fs set_log]; by rewrite (H1 q Hq).
  - change (fate_of (directory ++ ["broken"]) p w1)
      with (fate_of (directory ++ ["broken"]) p w) in H2.
    destruct (loop_error (exists_error w) (directory ++ ["broken"]) l);
      cbn [log set_log]; apply elem_of_app; by left.
Qed.

(** A path outside the regions of the archives reached holds what it
    held. *)
Lemma isolate_from_frame (w : world) (q : Path) :
  (∀ a, a ∈ reached (exists_error w) (directory ++ ["broken"]) l →
        ¬ region (directory ++ ["broken"]) a q) →
  fs (isolate_from (directory ++ ["broken"]) l w) !! q = fs w !! q.
Proof.
  intros Hq. unfold isolate_from, isolate_loop.
  destruct (loop_error (exists_error w) (directory ++ ["broken"]) l);
    cbn [fs set_log]; by rewrite steps_frame.
Qed.

Lemma isolate_from_stdout (w : world) :
  stdout (isolate_from (directory ++ ["broken"]) l w) = stdout w.
Proof.
  unfold isolate_from, isolate_loop.
  destruct (loop_error (exists_error w) (directory ++ ["broken"]) l);
    cbn [stdout set_log]; by rewrite steps_stdout.
Qed.



End isolation_of_a_directory.
(** ** The [broken] directory *)



Lemma with_directory_oracles (w : world) (dir : Path) :
  exists_error (with_directory w dir) = exists_error w
  ∧ move_error (with_directory w dir) = move_error w
  ∧ stdout (with_directory w dir) = stdout w
  ∧ log (with_directory w dir) = log w.
Proof. unfold with_directory. by destruct (fs w !! dir). Qed.






(** ** The claim about isolation *)



(** ** The broken archives that [process] hands to the isolation

    The two assumptions of the theorem above hold whenever
    [_isolate_broken_files] is reached from [process]: the broken archives
    are among the entries matched by the glob, each once, and the name of
    a matched entry ends in [.epub]. *)

Lemma validate_returns (v : EpubValidator) (w : world) :
  ∃ v' w' b,
    Validator.validate (v, w) = ((v', w'), Return b) ∧ fs w' = fs w.
Proof.
  destruct (is_zipfile (file_at w (file_path v))) eqn:Hz.
  - destruct (ZipFile_open (file_at w (file_path v))) as [zf|[msg|msg]] eqn:Ho.
    + rewrite (validate_opened v w zf Hz Ho). by eexists _, _, _.
    + rewrite (validate_bad_zip v w msg Hz Ho). by eexists _, _, _.
    + rewrite (validate_open_error v w msg Hz Ho). by eexists _, _, _.
  - rewrite (validate_not_zip v w Hz). by eexists _, _, _.
Qed.

Lemma log_each_run {O : Type} (f : string → string) (l : list string)
    (o : O) (w : world) :
  ∃ w', for_each l (fun x => logger_call INFO (f x)) (o, w)
        = ((o, w'), Return tt)
        ∧ fs w' = fs w.
Proof.
  revert w. induction l as [|x l IH]; intros w.
  - by exists w.
  - simpl. unfold bind. unfold logger_call at 1, modify at 1. simpl.
    destruct (IH (set_log (log_emit INFO (f x) (log w)) w)) as (w' & -> & Hfs).
    by exists w'.
Qed.

Lemma process_one_run (p : Path) (s : EpubSorter) (w : world) :
  ∃ s' w',
    Sorter.process_one p (s, w) = ((s', w'), Return tt)
    ∧ fs w' = fs w
    ∧ directory s' = directory s
    ∧ isolate_broken s' = isolate_broken s
    ∧ (broken_epubs s' = broken_epubs s
       ∨ broken_epubs s' = broken_epubs s ++ [p]).
Proof.
  destruct (validate_returns (Validator.__init__ p) w) as (v' & w1 & b & Hv & Hfs).
  unfold Sorter.process_one, bind, call_on. simpl. rewrite Hv. simpl.
  destruct b.
  - eexists _, _. split; [reflexivity|]. simpl. auto.
  - unfold logger_call at 1, modify at 1. simpl.
    destruct (negb (is_valid_zip v')); simpl.
    + match goal with
      | |- context [for_each _ _ (?o, ?w0)] =>
          destruct (log_each_run (fun e => "  - " +:+ e)
                      (missing_resources v') o w0) as (w2 & -> & Hfs2)
      end.
      eexists _, _. split; [reflexivity|]. simpl. simpl in Hfs2.
      rewrite Hfs2. auto.
    + match goal with
      | |- context [for_each _ _ (?o, ?w0)] =>
          destruct (log_each_run (fun e => "  - " +:+ e)
                      (missing_resources v') o w0) as (w2 & -> & Hfs2)
      end.
      eexists _, _. split; [reflexivity|]. simpl. simpl in Hfs2.
      rewrite Hfs2. auto.
Qed.

Lemma scan_loop_run (files : list Path) (s : EpubSorter) (w : world) :
  ∃ s' w' l,
    for_each files Sorter.process_one (s, w) = ((s', w'), Return tt)
    ∧ fs w' = fs w
    ∧ directory s' = directory s
    ∧ isolate_broken s' = isolate_broken s
    ∧ l `sublist_of` files
    ∧ broken_epubs s' = broken_epubs s ++ l.
Proof.
  revert s w. induction files as [|p files IH]; intros s w.
  - exists s, w, []. by rewrite app_nil_r.
  - destruct (process_one_run p s w) as (s1 & w1 & Hrun & Hfs & Hdir & Hiso & Hb).
    destruct (IH s1 w1) as (s' & w' & l & Hloop & Hfs' & Hdir' & Hiso' & Hsub & Hb').
    simpl. unfold bind. rewrite Hrun, Hloop.
    destruct Hb as [Hb|Hb].
    + exists s', w', l. rewrite Hb' , Hb.
      repeat split; try congruence. by apply sublist_cons.
    + exists s', w', (p :: l). rewrite Hb', Hb, <- app_assoc.
      repeat split; try congruence. by apply sublist_skip.
Qed.

Lemma glob_epub_child (w : world) (dir p : Path) :
  p ∈ glob_epub w dir → p = dir ++ [Path_name p].
Proof. unfold glob_epub. intros H. by apply list_elem_of_filter in H as [[? _] _]. Qed.

Lemma glob_epub_NoDup (w : world) (dir : Path) : NoDup (glob_epub w dir).
Proof. unfold glob_epub. apply NoDup_filter, NoDup_elements. Qed.

Lemma glob_epub_name (w : world) (dir p : Path) :
  p ∈ glob_epub w dir → Path_name p ≠ "broken".
Proof.
  unfold glob_epub. intros H Hname.
  apply list_elem_of_filter in H as [[_ Hends] _].
  rewrite Hname in Hends. vm_compute in Hends. discriminate Hends.
Qed.

(** After the validation loop of [process], run from a fresh sorter over
    the matched entries, the broken archives are entries of the directory
    and no archive is listed twice. *)
Lemma process_hands_over_globbed_archives
    (dir : Path) (isolate : bool) (w w1 : world) :
  ∃ s' w',
    for_each (glob_epub w dir) Sorter.process_one
      (Sorter.__init__ dir isolate, w1) = ((s', w'), Return tt)
    ∧ fs w' = fs w1
    ∧ (∀ p, p ∈ broken_epubs s' →
            p = directory s' ++ [Path_name p] ∧ Path_name p ≠ "broken")
    ∧ NoDup (broken_epubs s').
Proof.
  destruct (scan_loop_run (glob_epub w dir) (Sorter.__init__ dir isolate) w1)
    as (s' & w' & l & Hrun & Hfs & Hdir & _ & Hsub & Hb).
  exists s', w'. simpl in Hb, Hdir. rewrite Hb, Hdir.
  split; [done|]. split; [done|]. split.
  - intros p Hp.
    assert (Hin : p ∈ glob_epub w dir) by by apply elem_of_sublist with l.
    split; [by apply glob_epub_child with w | by apply glob_epub_name with w dir].
  - exact (sublist_NoDup _ _ (glob_epub_NoDup w dir) Hsub).
Qed.

(** ** Scenarios *)

(** Scenario 1: the image is an entry, the archive is valid. *)
Example scenario1_is_valid :
  Validator.validate (Validator.__init__ book, scenario1_world)
  = ((Validator.__init__ book, scenario1_world), Return true).
Proof. vm_compute. reflexivity. Qed.

(** Scenario 3: a file that is no zip. *)
Example scenario3_not_a_zip :
  Validator.validate (Validator.__init__ book, not_zip_world)
  = (({| file_path := book; missing_resources := []; is_valid_zip := false |},
      not_zip_world), Return false).
Proof. vm_compute. reflexivity. Qed.

(** A directory whose name ends in [.epub] is matched, judged broken and
    moved with what lies in it; and a move that fails after the copy has
    been made leaves the archive in both places. *)
Example process_moves_a_directory_with_its_tree :
  let run := Sorter.process (Sorter.__init__ ["books"] true, tree_world) in
  run.2 = Return tt
  ∧ length (broken_epubs run.1.1) = 2
  ∧ fs run.1.2 !! ["books"; "notes.epub"] = None
  ∧ fs run.1.2 !! ["books"; "notes.epub"; "page.txt"] = None
  ∧ fs run.1.2 !! ["books"; "broken"; "notes.epub"] = Some Dir
  ∧ fs run.1.2 !! ["books"; "broken"; "notes.epub"; "page.txt"]
    = Some (File not_a_zip)
  ∧ fs run.1.2 !! ["books"; "b.epub"] = Some (File not_a_zip)
  ∧ fs run.1.2 !! ["books"; "broken"; "b.epub"] = Some (File not_a_zip)
  ∧ (INFO, "Moved: notes.epub") ∈ log run.1.2
  ∧ (ERROR, "Failed to move b.epub: [Errno 13] Permission denied: 'books/b.epub'")
    ∈ log run.1.2.
Proof.
  vm_compute. repeat split; repeat constructor.
Qed.

(** An error of the test of a destination ends the loop: the archives
    after it are neither moved nor warned about, and the error is logged
    as a failure to create the directory. *)
Example isolation_stops_at_a_failed_test :
  let run := Sorter._isolate_broken_files (long_name_sorter, long_name_world) in
  run.2 = Return tt
  ∧ fs run.1.2 !! ["books"; "c.epub"] = Some (File not_a_zip)
  ∧ fs run.1.2 !! ["books"; "d.epub"] = Some (File not_a_zip)
  ∧ fs run.1.2 !! ["books"; "broken"; "d.epub"] = None
  ∧ log run.1.2
    = [(INFO, "Moving broken files to: books/broken");
       (ERROR, "Failed to create isolation directory: [Errno 36] File name too long: 'books/broken/a-title-that-goes-on-and-on.epub'")].
Proof.
  vm_compute. repeat split.
Qed.

(** A file called [broken] stands in the way of the directory. *)
Example isolation_blocked_by_a_file :
  let run := Sorter.process (Sorter.__init__ ["books"] true, blocked_world) in
  run.2 = Return tt
  ∧ fs run.1.2 !! ["books"; "b.epub"] = Some (File not_a_zip)
  ∧ fs run.1.2 !! ["books"; "broken"] = Some (File older_file)
  ∧ (ERROR, "Failed to create isolation directory: [Errno 17] File exists: 'books/broken'")
    ∈ log run.1.2.
Proof.
  vm_compute. repeat split; repeat constructor.
Qed.

(** The system refuses to create the directory. *)
Example isolation_refused_by_the_system :
  let run := Sorter.process (Sorter.__init__ ["books"] true, refusing_world) in
  run.2 = Return tt
  ∧ fs run.1.2 !! ["books"; "b.epub"] = Some (File not_a_zip)
  ∧ fs run.1.2 !! ["books"; "broken"] = None
  ∧ (ERROR, "Failed to create isolation directory: [Errno 13] Permission denied: 'books/broken'")
    ∈ log run.1.2.
Proof.
  vm_compute. repeat split; repeat constructor.
Qed.

(** The text of a path with the root [//]. *)
Example Path_str_roots :
  Path_str ["//"; "books"; "broken"] = "//books/broken"
  ∧ Path_str ["/"; "books"] = "/books"
  ∧ Path_str ["/"] = "/"
  ∧ Path_str ["books"; "broken"] = "books/broken"
  ∧ Path_name ["//"] = ""
  ∧ Path_name ["/"; "books"] = "books".
Proof. vm_compute. repeat split. Qed.

(** Scenario 5 and more, through [process]: of three broken archives one
    collides with a name in [broken], one cannot be moved and one is
    moved; the summary counts the three. *)
Example process_isolation_scenario :
  let run := Sorter.process (Sorter.__init__ ["books"] true, isolation_world) in
  run.2 = Return tt
  ∧ valid_epubs run.1.1 = []
  ∧ length (broken_epubs run.1.1) = 3
  ∧ stdout run.1.2
    = ["------------------------------"; "Validation Summary";
       "------------------------------"; "Total Files Checked: 3";
       "Valid Files:         0"; "Broken Files:        3";
       "Moved to:            books/broken";
       "------------------------------"]
  ∧ fs run.1.2 !! ["books"; "c.epub"] = Some (File not_a_zip)
  ∧ fs run.1.2 !! ["books"; "broken"; "c.epub"] = Some (File older_file)
  ∧ fs run.1.2 !! ["books"; "b.epub"] = Some (File not_a_zip)
  ∧ fs run.1.2 !! ["books"; "broken"; "b.epub"] = None
  ∧ fs run.1.2 !! ["books"; "d.epub"] = None
  ∧ fs run.1.2 !! ["books"; "broken"; "d.epub"] = Some (File not_a_zip)
  ∧ (WARNING, "File already exists in isolation folder, skipping: c.epub")
    ∈ log run.1.2
  ∧ (ERROR, "Failed to move b.epub: Permission denied") ∈ log run.1.2
  ∧ (INFO, "Moved: d.epub") ∈ log run.1.2.
Proof.
  vm_compute. repeat split; repeat constructor.
Qed.

(** * Further properties of the validator *)

(** ** What [validate] reads and what it leaves alone *)

(** X1: [validate] never writes: the file system, the printed lines and the
    fault behaviour of the system are what they were, and [file_path] is
    kept.  The log grows by at most one record, an error, and only when
    [ZipFile] raised something other than [BadZipFile]. *)
Theorem validate_only_logs (v : EpubValidator) (w : world) :
  let run := Validator.validate (v, w) in
  fs run.1.2 = fs w
  ∧ stdout run.1.2 = stdout w
  ∧ mkdir_error run.1.2 = mkdir_error w
  ∧ move_error run.1.2 = move_error w
  ∧ file_path run.1.1 = file_path v
  ∧ (log run.1.2 = log w
     ∨ ∃ msg,
         ZipFile_open (file_at w (file_path v)) = Raise (OtherException msg)
         ∧ log run.1.2
           = log w ++ [(ERROR, "Error processing " +:+
                               Path_name (file_path v) +:+ ": " +:+ msg)]).
Proof.
  cbv zeta.
  destruct (is_zipfile (file_at w (file_path v))) eqn:Hz.
  - destruct (ZipFile_open (file_at w (file_path v))) as [zf|[msg|msg]] eqn:Ho.
    + rewrite (validate_opened v w zf Hz Ho). simpl. auto 10.
    + rewrite (validate_bad_zip v w msg Hz Ho). simpl. auto 10.
    + rewrite (validate_open_error v w msg Hz Ho). simpl.
      repeat split; try done. right. by exists msg.
  - rewrite (validate_not_zip v w Hz). simpl. auto 10.
Qed.

(** X2: The verdict on a fresh validator, classified.  A cleared zip flag
    comes with an empty missing list and the answer false; the answer true
    comes with a set flag and an empty missing list; and the answer false
    has one of three causes: the flag is cleared, something is missing, or
    [ZipFile] raised an error other than [BadZipFile] - in which case
    neither the flag nor the missing list says why. *)
Theorem validate_verdict_classified (p : Path) (w : world) :
  let run := Validator.validate (Validator.__init__ p, w) in
  (is_valid_zip run.1.1 = false →
     missing_resources run.1.1 = [] ∧ run.2 = Return false)
  ∧ (run.2 = Return true →
     is_valid_zip run.1.1 = true ∧ missing_resources run.1.1 = [])
  ∧ (run.2 = Return false →
     is_valid_zip run.1.1 = false
     ∨ missing_resources run.1.1 ≠ []
     ∨ (∃ msg, ZipFile_open (file_at w p) = Raise (OtherException msg))
       ∧ is_valid_zip run.1.1 = true ∧ missing_resources run.1.1 = []).
Proof.
  cbv zeta.
  destruct (is_zipfile (file_at w p)) eqn:Hz.
  - destruct (ZipFile_open (file_at w p)) as [zf|[msg|msg]] eqn:Ho.
    + rewrite (validate_opened (Validator.__init__ p) w zf Hz Ho). simpl.
      destruct (archive_verdict zf) as [|m ms]; simpl.
      * repeat split; done.
      * repeat split; try done. intros _. right. by left.
    + rewrite (validate_bad_zip (Validator.__init__ p) w msg Hz Ho). simpl.
      repeat split; try done. intros _. by left.
    + rewrite (validate_open_error (Validator.__init__ p) w msg Hz Ho). simpl.
      repeat split; try done. intros _. right. right.
      split; [by exists msg | done].
  - rewrite (validate_not_zip (Validator.__init__ p) w Hz). simpl.
    repeat split; try done. intros _. by left.
Qed.

(** X3: [validate] looks at nothing but the file at its own path: in two
    worlds that hold the same entry there, however else they differ, it
    leaves the validator in the same state and gives the same answer. *)
Theorem validate_depends_on_own_file_only
    (v : EpubValidator) (w1 w2 : world)
    (Hsame : fs w1 !! file_path v = fs w2 !! file_path v) :
  (Validator.validate (v, w1)).1.1 = (Validator.validate (v, w2)).1.1
  ∧ (Validator.validate (v, w1)).2 = (Validator.validate (v, w2)).2.
Proof.
  assert (Hf : file_at w1 (file_path v) = file_at w2 (file_path v)).
  { unfold file_at. by rewrite Hsame. }
  destruct (is_zipfile (file_at w1 (file_path v))) eqn:Hz.
  - destruct (ZipFile_open (file_at w1 (file_path v))) as [zf|[msg|msg]] eqn:Ho.
    + rewrite (validate_opened v w1 zf Hz Ho).
      rewrite Hf in Hz, Ho. by rewrite (validate_opened v w2 zf Hz Ho).
    + rewrite (validate_bad_zip v w1 msg Hz Ho).
      rewrite Hf in Hz, Ho. by rewrite (validate_bad_zip v w2 msg Hz Ho).
    + rewrite (validate_open_error v w1 msg Hz Ho).
      rewrite Hf in Hz, Ho. by rewrite (validate_open_error v w2 msg Hz Ho).
  - rewrite (validate_not_zip v w1 Hz).
    rewrite Hf in Hz. by rewrite (validate_not_zip v w2 Hz).
Qed.

Lemma validate_depends_on_own_file_only_witness :
  fs scenario2_world !! file_path (Validator.__init__ book)
  = fs busy_world !! file_path (Validator.__init__ book)
  ∧ (Validator.validate (Validator.__init__ book, scenario2_world)).2
    = (Validator.validate (Validator.__init__ book, busy_world)).2.
Proof.
  assert (H : fs scenario2_world !! file_path (Validator.__init__ book)
              = fs busy_world !! file_path (Validator.__init__ book))
    by (vm_compute; reflexivity).
  split; [exact H|].
  exact (proj2 (validate_depends_on_own_file_only
                  (Validator.__init__ book) scenario2_world busy_world H)).
Defined.

(** ** Which entries and which elements are looked at *)

Lemma flat_map_agree {A B : Type} (f g : A → list B) (l : list A) :
  (∀ x, x ∈ l → f x = g x) → flat_map f l = flat_map g l.
Proof.
  induction l as [|x l IH]; intros H; [done|]. simpl.
  rewrite (H x (list_elem_of_here x l)), IH; [done|].
  intros y Hy. by apply H, list_elem_of_further.
Qed.

(** X6: Only content documents are opened: two archives that agree on what
    their [.html], [.xhtml] and [.htm] entries contain are judged alike,
    whatever their other entries hold. *)
Theorem other_entries_are_never_read
    (zf1 zf2 : ZipFile) (all_files : gset string) (st : EpubValidator * world)
    (Hagree : ∀ d, d ∈ all_files →
                Validator.is_content_document d = true →
                open_and_parse zf1 d = open_and_parse zf2 d) :
  Validator._check_content_files zf1 all_files st
  = Validator._check_content_files zf2 all_files st.
Proof.
  unfold Validator._check_content_files. rewrite !check_in_order_run.
  f_equal. apply flat_map_agree. intros d Hd.
  apply elem_of_elements in Hd.
  unfold document_verdict.
  destruct (Validator.is_content_document d) eqn:Hdoc; [|done].
  by rewrite (Hagree d Hd Hdoc).
Qed.

Lemma other_entries_are_never_read_witness :
  (∀ d, d ∈ ({[ "a.xhtml"; "cover.png" ]} : gset string) →
        Validator.is_content_document d = true →
        open_and_parse (archive_of ["a.xhtml"; "cover.png"] [img_tag "x.png"]) d
        = open_and_parse
            (with_document
               (archive_of ["a.xhtml"; "cover.png"] [img_tag "x.png"])
               "cover.png" (Raise (OtherException "not markup"))) d)
  ∧ Validator._check_content_files
      (archive_of ["a.xhtml"; "cover.png"] [img_tag "x.png"])
      {[ "a.xhtml"; "cover.png" ]} (Validator.__init__ book, scenario2_world)
    = Validator._check_content_files
        (with_document
           (archive_of ["a.xhtml"; "cover.png"] [img_tag "x.png"])
           "cover.png" (Raise (OtherException "not markup")))
        {[ "a.xhtml"; "cover.png" ]} (Validator.__init__ book, scenario2_world).
Proof.
  assert (H : ∀ d, d ∈ ({[ "a.xhtml"; "cover.png" ]} : gset string) →
                Validator.is_content_document d = true →
                open_and_parse
                  (archive_of ["a.xhtml"; "cover.png"] [img_tag "x.png"]) d
                = open_and_parse
                    (with_document
                       (archive_of ["a.xhtml"; "cover.png"] [img_tag "x.png"])
                       "cover.png" (Raise (OtherException "not markup"))) d).
  { intros d Hd Hdoc. apply elem_of_union in Hd as [Hd|Hd];
      apply elem_of_singleton in Hd; subst d; [reflexivity|discriminate Hdoc]. }
  split; [exact H|].
  exact (other_entries_are_never_read _ _ _ _ H).
Defined.

(** X5: An entry name listed several times in the archive is scanned once:
    up to order, the missing list of [validate] is the one the loop gives
    over the entry names with the repetitions removed. *)
Theorem each_document_is_scanned_once (p : Path) (w : world) (zf : ZipFile)
    (Hz : is_zipfile (file_at w p) = true)
    (Hopen : ZipFile_open (file_at w p) = Return zf) :
  missing_resources (Validator.validate (Validator.__init__ p, w)).1.1
  ≡ₚ missing_resources
       (Validator.check_in_order (remove_dups (namelist zf)) zf
          (list_to_set (namelist zf)) (Validator.__init__ p, w)).1.1.
Proof.
  rewrite (validate_opened (Validator.__init__ p) w zf Hz Hopen).
  rewrite check_in_order_run. unfold appends, archive_verdict. simpl.
  apply Permutation_flat_map, NoDup_Permutation.
  - apply NoDup_elements.
  - apply NoDup_remove_dups.
  - intros x. by rewrite elem_of_elements, elem_of_list_to_set, elem_of_remove_dups.
Qed.

Lemma each_document_is_scanned_once_witness :
  is_zipfile
    (file_at
       (one_file_world
          {| is_zipfile := true;
             ZipFile_open :=
               Return (archive_of ["a.xhtml"; "a.xhtml"] [img_tag "x.png"]) |})
       book) = true
  ∧ missing_resources
      (Validator.validate
         (Validator.__init__ book,
          one_file_world
            {| is_zipfile := true;
               ZipFile_open :=
                 Return (archive_of ["a.xhtml"; "a.xhtml"] [img_tag "x.png"]) |})).1.1
    ≡ₚ ["Missing: 'x.png' (referenced in 'a.xhtml')"].
Proof.
  split; [reflexivity|].
  exact (each_document_is_scanned_once book
           (one_file_world
              {| is_zipfile := true;
                 ZipFile_open :=
                   Return (archive_of ["a.xhtml"; "a.xhtml"] [img_tag "x.png"]) |})
           (archive_of ["a.xhtml"; "a.xhtml"] [img_tag "x.png"])
           eq_refl eq_refl).
Defined.

(** X4: [validate] does not reset the missing list: called a second time on
    the same object it appends the same descriptions again, and it gives
    the same answer and the same zip flag as the first time. *)
Theorem validate_again_appends_again (p : Path) (w : world) :
  let first := Validator.validate (Validator.__init__ p, w) in
  let second := Validator.validate first.1 in
  missing_resources second.1.1
  = missing_resources first.1.1 ++ missing_resources first.1.1
  ∧ second.2 = first.2
  ∧ is_valid_zip second.1.1 = is_valid_zip first.1.1.
Proof.
  cbv zeta.
  destruct (is_zipfile (file_at w p)) eqn:Hz.
  - destruct (ZipFile_open (file_at w p)) as [zf|[msg|msg]] eqn:Ho.
    + rewrite (validate_opened (Validator.__init__ p) w zf Hz Ho). simpl.
      rewrite (validate_opened
                 (add_missing (archive_verdict zf) (Validator.__init__ p))
                 w zf Hz Ho). simpl.
      split; [done|]. split; [|done].
      by destruct (archive_verdict zf).
    + rewrite (validate_bad_zip (Validator.__init__ p) w msg Hz Ho). simpl.
      by rewrite (validate_bad_zip (flag_invalid_zip (Validator.__init__ p))
                    w msg Hz Ho).
    + rewrite (validate_open_error (Validator.__init__ p) w msg Hz Ho). simpl.
      by rewrite (validate_open_error (Validator.__init__ p) (set_log _ w)
                    msg Hz Ho).
  - rewrite (validate_not_zip (Validator.__init__ p) w Hz). simpl.
    by rewrite (validate_not_zip (flag_invalid_zip (Validator.__init__ p)) w Hz).
Qed.

Lemma find_all_image_elements (soup : Soup) (name : string) :
  name = "img" ∨ name = "image" →
  find_all (filter is_image_element soup) name = find_all soup name.
Proof.
  intros Hname. unfold find_all. apply list_filter_filter_l.
  intros t Ht. unfold is_image_element. rewrite Ht. exact Hname.
Qed.

(** X8: The scan looks at [img] and [image] elements only: a document and the
    same document stripped of every other element are scanned alike. *)
Theorem other_elements_are_ignored
    (zf : ZipFile) (d : string) (all_files : gset string) (soup : Soup)
    (st : EpubValidator * world)
    (Hparse : open_and_parse zf d = Return soup) :
  Validator._scan_file_for_images zf d all_files st
  = Validator._scan_file_for_images
      (with_document zf d (Return (filter is_image_element soup)))
      d all_files st.
Proof.
  rewrite (scan_parsed zf d all_files soup st Hparse).
  rewrite (scan_parsed _ d all_files (filter is_image_element soup) st).
  2:{ simpl. by rewrite String.eqb_refl. }
  unfold image_references.
  rewrite !find_all_image_elements; auto.
Qed.

Lemma other_elements_are_ignored_witness :
  open_and_parse
    (archive_of ["a.xhtml"]
       [{| tag_name := "link"; tag_attrs := {[ "href" := "gone.css" ]} |};
        img_tag "x.png"]) "a.xhtml"
  = Return [{| tag_name := "link"; tag_attrs := {[ "href" := "gone.css" ]} |};
            img_tag "x.png"]
  ∧ Validator._scan_file_for_images
      (archive_of ["a.xhtml"]
         [{| tag_name := "link"; tag_attrs := {[ "href" := "gone.css" ]} |};
          img_tag "x.png"])
      "a.xhtml" ∅ (Validator.__init__ book, scenario2_world)
    = Validator._scan_file_for_images
        (with_document
           (archive_of ["a.xhtml"]
              [{| tag_name := "link"; tag_attrs := {[ "href" := "gone.css" ]} |};
               img_tag "x.png"])
           "a.xhtml" (Return [img_tag "x.png"]))
        "a.xhtml" ∅ (Validator.__init__ book, scenario2_world).
Proof.
  split; [reflexivity|].
  exact (other_elements_are_ignored
           (archive_of ["a.xhtml"]
              [{| tag_name := "link"; tag_attrs := {[ "href" := "gone.css" ]} |};
               img_tag "x.png"])
           "a.xhtml" ∅ _ (Validator.__init__ book, scenario2_world) eq_refl).
Defined.

Lemma scan_single_image (zf : ZipFile) (d : string) (all_files : gset string)
    (attrs : gmap string string) (st : EpubValidator * world) :
  open_and_parse zf d = Return [image_tag attrs] →
  Validator._scan_file_for_images zf d all_files st
  = match image_reference (image_tag attrs) with
    | Some r =>
        Validator._verify_resource r (posixpath.dirname d) all_files d st
    | None => (st, Return tt)
    end.
Proof.
  intros Hparse. rewrite (scan_parsed zf d all_files _ st Hparse).
  unfold image_references, find_all. simpl.
  destruct (image_reference (image_tag attrs)) as [r|]; simpl.
  - rewrite verify_resource_run, app_nil_r. reflexivity.
  - apply appends_nil.
Qed.

(** X9: On an [image] element a non-empty [xlink:href] wins: [href] is then
    not looked at, whatever it holds.  [href] is used when [xlink:href] is
    absent or empty, and the element is skipped when both are. *)
Theorem xlink_href_is_preferred_to_href
    (zf : ZipFile) (d : string) (all_files : gset string)
    (attrs : gmap string string) (st : EpubValidator * world)
    (Hparse : open_and_parse zf d = Return [image_tag attrs]) :
  (∀ x, attrs !! "xlink:href" = Some x → x ≠ "" →
     Validator._scan_file_for_images zf d all_files st
     = Validator._verify_resource x (posixpath.dirname d) all_files d st)
  ∧ (∀ h, attrs !! "xlink:href" = None ∨ attrs !! "xlink:href" = Some "" →
     attrs !! "href" = Some h → h ≠ "" →
     Validator._scan_file_for_images zf d all_files st
     = Validator._verify_resource h (posixpath.dirname d) all_files d st)
  ∧ (attrs !! "xlink:href" = None ∨ attrs !! "xlink:href" = Some "" →
     attrs !! "href" = None ∨ attrs !! "href" = Some "" →
     Validator._scan_file_for_images zf d all_files st = (st, Return tt)).
Proof.
  rewrite (scan_single_image zf d all_files attrs st Hparse).
  unfold image_reference. simpl.
  split; [|split].
  - intros x -> Hx. by destruct x.
  - intros h [-> | ->] -> Hh; by destruct h.
  - intros [-> | ->] [-> | ->]; reflexivity.
Qed.

Lemma xlink_href_is_preferred_to_href_witness :
  open_and_parse cover_archive "cover.xhtml" = Return [image_tag cover_attrs]
  ∧ Validator._scan_file_for_images cover_archive "cover.xhtml"
      {[ "cover.xhtml"; "cover.jpg" ]}
      (Validator.__init__ book, scenario2_world)
    = Validator._verify_resource "cover.jpg" (posixpath.dirname "cover.xhtml")
        {[ "cover.xhtml"; "cover.jpg" ]} "cover.xhtml"
        (Validator.__init__ book, scenario2_world).
Proof.
  assert (Hparse : open_and_parse cover_archive "cover.xhtml"
                   = Return [image_tag cover_attrs]) by reflexivity.
  assert (Hx : cover_attrs !! "xlink:href" = Some "cover.jpg")
    by (vm_compute; reflexivity).
  assert (Hne : "cover.jpg" ≠ "") by discriminate.
  split; [exact Hparse|].
  exact (proj1 (xlink_href_is_preferred_to_href cover_archive "cover.xhtml"
                  {[ "cover.xhtml"; "cover.jpg" ]} cover_attrs
                  (Validator.__init__ book, scenario2_world) Hparse)
           "cover.jpg" Hx Hne).
Defined.

(** ** Absolute references *)

Lemma normpath_absolute (path : string) :
  Str.startswith path "/" = true →
  Str.startswith (posixpath.normpath path) "/" = true.
Proof.
  destruct path as [|c rest]; [discriminate|]. intros Hstart.
  unfold posixpath.normpath. rewrite Hstart.
  change (String.eqb (String c rest) "") with false. cbv iota zeta.
  destruct (Str.startswith (String c rest) "//"
            && negb (Str.startswith (String c rest) "///")); reflexivity.
Qed.

(** X10: A reference that starts with a slash once decoded ignores the
    directory of its document.  It resolves to a path that starts with a
    slash, so in an archive with no such entry name it is reported
    missing wherever it occurs. *)
Theorem absolute_reference_ignores_the_document
    (src : string) (all_files : gset string) (context_file : string)
    (st : EpubValidator * world)
    (Habs : Str.startswith (urllib.unquote src) "/" = true) :
  (∀ base1 base2,
     Validator._verify_resource src base1 all_files context_file st
     = Validator._verify_resource src base2 all_files context_file st)
  ∧ (∀ base_dir,
     (∀ n, n ∈ all_files → Str.startswith n "/" = false) →
     ¬ external_reference src →
     Validator._verify_resource src base_dir all_files context_file st
     = ((add_missing
           ["Missing: '" +:+ posixpath.normpath (urllib.unquote src) +:+
            "' (referenced in '" +:+ context_file +:+ "')"] st.1, st.2),
        Return tt)).
Proof.
  assert (Hjoin : ∀ base, posixpath.join base (urllib.unquote src)
                          = urllib.unquote src).
  { intros base. unfold posixpath.join. by rewrite Habs. }
  split.
  - intros base1 base2. rewrite !verify_resource_run. unfold verdict_in.
    by rewrite !Hjoin.
  - intros base_dir Hrel Hsrc. rewrite verify_resource_run.
    unfold appends, verdict_in. rewrite (not_external_reference src Hsrc).
    cbv zeta. rewrite Hjoin. rewrite bool_decide_eq_false_2; [done|].
    intros Hin. apply Hrel in Hin.
    by rewrite (normpath_absolute _ Habs) in Hin.
Qed.

Lemma absolute_reference_ignores_the_document_witness :
  Str.startswith (urllib.unquote "/images/a.png") "/" = true
  ∧ Validator._verify_resource "/images/a.png" "OEBPS"
      {[ "images/a.png"; "OEBPS/ch1.xhtml" ]} "OEBPS/ch1.xhtml"
      (Validator.__init__ book, scenario2_world)
    = ((add_missing
          ["Missing: '/images/a.png' (referenced in 'OEBPS/ch1.xhtml')"]
          (Validator.__init__ book), scenario2_world), Return tt).
Proof.
  split; [reflexivity|].
  refine (proj2 (absolute_reference_ignores_the_document "/images/a.png"
                   {[ "images/a.png"; "OEBPS/ch1.xhtml" ]} "OEBPS/ch1.xhtml"
                   (Validator.__init__ book, scenario2_world) eq_refl)
            "OEBPS" _ _).
  - intros n Hn. apply elem_of_union in Hn as [Hn|Hn];
      apply elem_of_singleton in Hn; subst n; reflexivity.
  - intros H. apply external_reference_spec in H. discriminate H.
Defined.

(** ** References to a file beside the document *)

Lemma append_cons (c : ascii) (a b : string) :
  String c a +:+ b = String c (a +:+ b).
Proof. reflexivity. Qed.

Lemma append_empty_l (b : string) : "" +:+ b = b.
Proof. reflexivity. Qed.

Lemma append_nonempty (a : string) (c : ascii) (b : string) :
  a +:+ String c b ≠ "".
Proof. destruct a; discriminate. Qed.

Lemma append_assoc (a b c : string) : (a +:+ b) +:+ c = a +:+ b +:+ c.
Proof.
  induction a as [|x a IH]; [done|]. rewrite !append_cons. by rewrite IH.
Qed.

Lemma split_sep_plain (s : string) :
  has_sep s = false → Str.split_sep s = [s].
Proof.
  induction s as [|c s IH]; [done|]. simpl.
  intros H. apply orb_false_elim in H as [Hc Hs].
  rewrite Hc, (IH Hs). reflexivity.
Qed.

Lemma split_sep_append (a b : string) :
  has_sep a = false →
  Str.split_sep (a +:+ "/" +:+ b) = a :: Str.split_sep b.
Proof.
  induction a as [|c a IH]; intros H.
  - reflexivity.
  - simpl in H. apply orb_false_elim in H as [Hc Ha].
    rewrite append_cons. simpl. rewrite Hc, (IH Ha). reflexivity.
Qed.

Lemma concat_snoc (cs : list string) (x : string) :
  cs ≠ [] →
  String.concat "/" (cs ++ [x]) = String.concat "/" cs +:+ "/" +:+ x.
Proof.
  induction cs as [|c cs IH]; [done|]. intros _.
  destruct cs as [|c' cs]; [reflexivity|].
  change (String.concat "/" ((c :: c' :: cs) ++ [x]))
    with (c +:+ "/" +:+ String.concat "/" ((c' :: cs) ++ [x])).
  rewrite IH by done.
  change (String.concat "/" (c :: c' :: cs))
    with (c +:+ "/" +:+ String.concat "/" (c' :: cs)).
  by rewrite !append_assoc.
Qed.

Lemma split_sep_concat (cs : list string) :
  cs ≠ [] → Forall (fun c => has_sep c = false) cs →
  Str.split_sep (String.concat "/" cs) = cs.
Proof.
  induction cs as [|c cs IH]; [done|]. intros _ Hall.
  apply Forall_cons in Hall as [Hc Hcs].
  destruct cs as [|c' cs].
  - by apply split_sep_plain.
  - change (String.concat "/" (c :: c' :: cs))
      with (c +:+ "/" +:+ String.concat "/" (c' :: cs)).
    rewrite split_sep_append by done. by rewrite IH.
Qed.

Lemma normpath_step_plain (n : nat) (acc : list string) (c : string) :
  plain_name c → posixpath.normpath_step n acc c = c :: acc.
Proof.
  intros (H1 & H2 & H3 & _). unfold posixpath.normpath_step.
  apply String.eqb_neq in H1, H2, H3. by rewrite H1, H2, H3.
Qed.

Lemma normpath_steps_plain (n : nat) (cs acc : list string) :
  Forall plain_name cs →
  fold_left (posixpath.normpath_step n) cs acc = rev cs ++ acc.
Proof.
  revert acc. induction cs as [|c cs IH]; intros acc Hall; [done|].
  apply Forall_cons in Hall as [Hc Hcs]. simpl.
  rewrite normpath_step_plain by done. rewrite IH by done.
  by rewrite <- app_assoc.
Qed.

Lemma plain_name_start (c : string) :
  plain_name c → Str.startswith c "/" = false ∧ Str.nonempty c = true.
Proof.
  intros (H1 & _ & _ & H4). destruct c as [|a c]; [done|].
  simpl in H4. apply orb_false_elim in H4 as [Ha _].
  split; [|done]. unfold Str.startswith. unfold Str.is_sep in Ha.
  by rewrite Ha.
Qed.

Lemma concat_plain_start (cs : list string) :
  cs ≠ [] → Forall plain_name cs →
  Str.startswith (String.concat "/" cs) "/" = false
  ∧ Str.nonempty (String.concat "/" cs) = true.
Proof.
  destruct cs as [|c cs]; [done|]. intros _ Hall.
  apply Forall_cons in Hall as [Hc _].
  destruct (plain_name_start c Hc) as [Hs Hn].
  destruct cs as [|c' cs]; [done|].
  change (String.concat "/" (c :: c' :: cs))
    with (c +:+ "/" +:+ String.concat "/" (c' :: cs)).
  destruct c as [|a c]; [done|]. rewrite append_cons. done.
Qed.

(** [normpath] leaves a relative path made of plain names as it is. *)
Lemma normpath_plain (cs : list string) :
  cs ≠ [] → Forall plain_name cs →
  posixpath.normpath (String.concat "/" cs) = String.concat "/" cs.
Proof.
  intros Hne Hall.
  destruct (concat_plain_start cs Hne Hall) as [Hstart Hnonempty].
  assert (Heqb : String.eqb (String.concat "/" cs) "" = false).
  { by destruct (String.concat "/" cs). }
  unfold posixpath.normpath. rewrite Hstart, Heqb. cbv iota zeta.
  rewrite split_sep_concat; [|done|].
  2:{ eapply Forall_impl; [exact Hall|]. by intros c (_ & _ & _ & H). }
  rewrite normpath_steps_plain by done. rewrite app_nil_r, rev_involutive.
  change (posixpath.repeat_sep 0 +:+ String.concat "/" cs)
    with (String.concat "/" cs).
  by rewrite Hnonempty.
Qed.

Lemma through_last_sep_plain (s : string) :
  has_sep s = false → Str.through_last_sep s = "".
Proof.
  induction s as [|c s IH]; [done|]. simpl.
  intros H. apply orb_false_elim in H as [Hc Hs].
  by rewrite (IH Hs), Hc.
Qed.

Lemma through_last_sep_append (a name : string) :
  has_sep name = false →
  Str.through_last_sep (a +:+ "/" +:+ name) = a +:+ "/".
Proof.
  intros Hname. induction a as [|c a IH].
  - change ("" +:+ "/" +:+ name) with (String "/" name). simpl.
    by rewrite through_last_sep_plain.
  - rewrite !(append_cons c a). simpl. rewrite IH.
    destruct a; reflexivity.
Qed.

Lemma endswith_plain (s : string) :
  has_sep s = false → Str.endswith s "/" = false.
Proof.
  induction s as [|c s IH]; [done|]. simpl.
  intros H. apply orb_false_elim in H as [Hc Hs].
  rewrite (IH Hs). unfold Str.is_sep in Hc. rewrite Hc. reflexivity.
Qed.

Lemma endswith_append (a b : string) :
  b ≠ "" → Str.endswith (a +:+ b) "/" = Str.endswith b "/".
Proof.
  intros Hb. induction a as [|c a IH]; [done|].
  rewrite (append_cons c a). simpl. rewrite IH.
  destruct (a +:+ b) eqn:Hab.
  - destruct a; [destruct (Hb Hab) | discriminate Hab].
  - by destruct (Ascii.eqb c "/").
Qed.

Lemma endswith_concat_plain (cs : list string) :
  Forall plain_name cs → Str.endswith (String.concat "/" cs) "/" = false.
Proof.
  induction cs as [|c cs IH]; [done|]. intros Hall.
  apply Forall_cons in Hall as [(_ & _ & _ & Hc) Hcs].
  destruct cs as [|c' cs]; [by apply endswith_plain|].
  change (String.concat "/" (c :: c' :: cs))
    with (c +:+ "/" +:+ String.concat "/" (c' :: cs)).
  rewrite endswith_append by done.
  destruct (concat_plain_start (c' :: cs)) as [_ Hn]; [done|done|].
  specialize (IH Hcs).
  set (rest := String.concat "/" (c' :: cs)) in *.
  change ("/" +:+ rest) with (String "/" rest).
  destruct rest; [done|]. simpl. simpl in IH. by rewrite IH.
Qed.

Lemma rstrip_sep_append_sep (a : string) :
  Str.rstrip_sep (a +:+ "/") = Str.rstrip_sep a.
Proof.
  induction a as [|c a IH]; [done|].
  rewrite (append_cons c a). simpl. by rewrite IH.
Qed.

Lemma rstrip_sep_clean (a : string) :
  Str.endswith a "/" = false → Str.rstrip_sep a = a.
Proof.
  induction a as [|c a IH]; [done|]. simpl.
  intros H. apply orb_false_elim in H as [Hc Ha].
  rewrite (IH Ha). destruct a as [|c' a]; [|done].
  simpl in Hc. unfold Str.is_sep. by destruct (Ascii.eqb c "/").
Qed.

Lemma all_sep_append_sep (a : string) :
  Str.all_sep (a +:+ "/") = Str.all_sep a.
Proof.
  induction a as [|c a IH]; [done|].
  rewrite (append_cons c a). simpl. by rewrite IH.
Qed.

Lemma all_sep_clean (a : string) :
  Str.nonempty a = true → Str.endswith a "/" = false → Str.all_sep a = false.
Proof.
  induction a as [|c a IH]; [done|]. intros _. simpl.
  intros H. apply orb_false_elim in H as [Hc Ha].
  destruct a as [|c' a].
  - simpl in Hc. unfold Str.is_sep. by destruct (Ascii.eqb c "/").
  - rewrite IH by done. apply andb_false_r.
Qed.

Lemma dirname_plain (name : string) :
  has_sep name = false → posixpath.dirname name = "".
Proof.
  intros H. unfold posixpath.dirname. by rewrite through_last_sep_plain.
Qed.

Lemma dirname_append (dir name : string) :
  Str.nonempty dir = true → Str.endswith dir "/" = false →
  has_sep name = false →
  posixpath.dirname (dir +:+ "/" +:+ name) = dir.
Proof.
  intros Hne Hend Hname. unfold posixpath.dirname.
  rewrite through_last_sep_append by done. cbv zeta.
  rewrite all_sep_append_sep, (all_sep_clean dir Hne Hend).
  rewrite rstrip_sep_append_sep, (rstrip_sep_clean dir Hend).
  by destruct dir.
Qed.

Lemma join_clean (dir r : string) :
  Str.nonempty dir = true → Str.endswith dir "/" = false →
  Str.startswith r "/" = false →
  posixpath.join dir r = dir +:+ "/" +:+ r.
Proof.
  intros Hne Hend Hr. unfold posixpath.join. by rewrite Hr, Hne, Hend.
Qed.

(** The path of the entry named [r] in the directory of the document
    [cs/name], where [cs] are the names of the directories on the way. *)
Lemma sibling_target (cs : list string) (name r : string) :
  Forall plain_name cs → has_sep name = false → plain_name r →
  urllib.contains_percent r = false →
  posixpath.normpath
    (posixpath.join (posixpath.dirname (String.concat "/" (cs ++ [name])))
       (urllib.unquote r))
  = String.concat "/" (cs ++ [r]).
Proof.
  intros Hcs Hname Hr Hpercent.
  assert (Hall : Forall plain_name (cs ++ [r])).
  { apply Forall_app. split; [done|]. by apply Forall_singleton. }
  unfold urllib.unquote. rewrite Hpercent. simpl negb. cbv iota.
  destruct (plain_name_start r Hr) as [Hrs _].
  destruct (decide (cs = [])) as [->|Hne].
  - simpl app. change (String.concat "/" [name]) with name.
    rewrite dirname_plain by done.
    unfold posixpath.join. rewrite Hrs. simpl.
    rewrite append_empty_l. by apply (normpath_plain [r]).
  - rewrite concat_snoc by done.
    destruct (concat_plain_start cs Hne Hcs) as [_ Hnonempty].
    rewrite dirname_append; [|done|by apply endswith_concat_plain|done].
    rewrite join_clean; [|done|by apply endswith_concat_plain|done].
    rewrite <- concat_snoc by done. apply normpath_plain; [|done].
    by destruct cs.
Qed.

(** X11: A plain file name without escapes, referenced from a document, is
    looked up beside that document: for the document [cs/name] the path
    tested against the entries is [cs/r], and [r] itself for a document at
    the root of the archive. *)
Theorem plain_reference_is_looked_up_beside_the_document
    (cs : list string) (name r : string) (all_files : gset string)
    (st : EpubValidator * world)
    (Hcs : Forall plain_name cs)
    (Hname : has_sep name = false)
    (Hr : plain_name r)
    (Hpercent : urllib.contains_percent r = false)
    (Hext : ¬ external_reference r) :
  let d := String.concat "/" (cs ++ [name]) in
  let target := String.concat "/" (cs ++ [r]) in
  Validator._verify_resource r (posixpath.dirname d) all_files d st
  = ((add_missing
        (if bool_decide (target ∈ all_files) then []
         else ["Missing: '" +:+ target +:+ "' (referenced in '" +:+ d +:+ "')"])
        st.1, st.2), Return tt).
Proof.
  cbv zeta. rewrite verify_resource_run. unfold appends, verdict_in.
  rewrite (not_external_reference r Hext). cbv zeta.
  by rewrite (sibling_target cs name r Hcs Hname Hr Hpercent).
Qed.

Lemma plain_reference_is_looked_up_beside_the_document_witness :
  Forall plain_name ["OEBPS"; "text"]
  ∧ has_sep "ch1.xhtml" = false
  ∧ plain_name "fig.png"
  ∧ urllib.contains_percent "fig.png" = false
  ∧ ¬ external_reference "fig.png"
  ∧ Validator._verify_resource "fig.png"
      (posixpath.dirname "OEBPS/text/ch1.xhtml")
      {[ "OEBPS/text/ch1.xhtml"; "OEBPS/fig.png" ]} "OEBPS/text/ch1.xhtml"
      (Validator.__init__ book, scenario2_world)
    = ((add_missing
          ["Missing: 'OEBPS/text/fig.png' (referenced in 'OEBPS/text/ch1.xhtml')"]
          (Validator.__init__ book), scenario2_world), Return tt).
Proof.
  assert (H1 : Forall plain_name ["OEBPS"; "text"]).
  { repeat constructor; discriminate. }
  assert (H2 : has_sep "ch1.xhtml" = false) by reflexivity.
  assert (H3 : plain_name "fig.png").
  { repeat split; discriminate. }
  assert (H4 : urllib.contains_percent "fig.png" = false) by reflexivity.
  assert (H5 : ¬ external_reference "fig.png").
  { intros H. apply external_reference_spec in H. discriminate H. }
  repeat (split; [assumption|]).
  pose proof (plain_reference_is_looked_up_beside_the_document
                ["OEBPS"; "text"] "ch1.xhtml" "fig.png"
                {[ "OEBPS/text/ch1.xhtml"; "OEBPS/fig.png" ]}
                (Validator.__init__ book, scenario2_world)
                H1 H2 H3 H4 H5) as H.
  cbv zeta in H. etrans; [exact H|]. vm_compute. reflexivity.
Defined.

(** * Further properties of the sorter *)

(** ** The run of [process] *)

Lemma same_disk_refl (w : world) : same_disk w w.
Proof. by repeat split. Qed.

Lemma same_disk_trans (w1 w2 w3 : world) :
  same_disk w1 w2 → same_disk w2 w3 → same_disk w1 w3.
Proof.
  intros (A1 & A2 & A3 & A4 & A5) (B1 & B2 & B3 & B4 & B5).
  repeat split; congruence.
Qed.

Lemma same_disk_log (l : log_t) (w : world) : same_disk (set_log l w) w.
Proof. by repeat split. Qed.

Lemma validate_run_disk (v : EpubValidator) (w : world) :
  ∃ v' w' b,
    Validator.validate (v, w) = ((v', w'), Return b) ∧ same_disk w' w.
Proof.
  destruct (is_zipfile (file_at w (file_path v))) eqn:Hz.
  - destruct (ZipFile_open (file_at w (file_path v))) as [zf|[msg|msg]] eqn:Ho.
    + rewrite (validate_opened v w zf Hz Ho).
      eexists _, _, _. split; [done|]. apply same_disk_refl.
    + rewrite (validate_bad_zip v w msg Hz Ho).
      eexists _, _, _. split; [done|]. apply same_disk_refl.
    + rewrite (validate_open_error v w msg Hz Ho).
      eexists _, _, _. split; [done|]. apply same_disk_log.
  - rewrite (validate_not_zip v w Hz).
    eexists _, _, _. split; [done|]. apply same_disk_refl.
Qed.

Lemma is_valid_same_fs (w1 w2 : world) (p : Path) :
  fs w1 = fs w2 → is_valid w1 p = is_valid w2 p.
Proof.
  intros Hfs. unfold is_valid.
  assert (Hf : file_at w1 p = file_at w2 p) by (unfold file_at; by rewrite Hfs).
  destruct (is_zipfile (file_at w1 p)) eqn:Hz.
  - destruct (ZipFile_open (file_at w1 p)) as [zf|[msg|msg]] eqn:Ho.
    + rewrite (validate_opened (Validator.__init__ p) w1 zf Hz Ho).
      rewrite Hf in Hz, Ho.
      by rewrite (validate_opened (Validator.__init__ p) w2 zf Hz Ho).
    + rewrite (validate_bad_zip (Validator.__init__ p) w1 msg Hz Ho).
      rewrite Hf in Hz, Ho.
      by rewrite (validate_bad_zip (Validator.__init__ p) w2 msg Hz Ho).
    + rewrite (validate_open_error (Validator.__init__ p) w1 msg Hz Ho).
      rewrite Hf in Hz, Ho.
      by rewrite (validate_open_error (Validator.__init__ p) w2 msg Hz Ho).
  - rewrite (validate_not_zip (Validator.__init__ p) w1 Hz).
    rewrite Hf in Hz.
    by rewrite (validate_not_zip (Validator.__init__ p) w2 Hz).
Qed.

Lemma log_each_disk {O : Type} (f : string → string) (l : list string)
    (o : O) (w : world) :
  ∃ w', for_each l (fun x => logger_call INFO (f x)) (o, w)
        = ((o, w'), Return tt)
        ∧ same_disk w' w.
Proof.
  revert w. induction l as [|x l IH]; intros w.
  - exists w. split; [done|]. apply same_disk_refl.
  - simpl. unfold bind. unfold logger_call at 1, modify at 1. simpl.
    destruct (IH (set_log (log_emit INFO (f x) (log w)) w)) as (w' & -> & Hd).
    exists w'. split; [done|].
    apply same_disk_trans with (set_log (log_emit INFO (f x) (log w)) w);
      [done | apply same_disk_log].
Qed.

Lemma process_one_exact (p : Path) (s : EpubSorter) (w : world) :
  ∃ w',
    Sorter.process_one p (s, w) = ((classify w [p] s, w'), Return tt)
    ∧ same_disk w' w.
Proof.
  destruct (validate_run_disk (Validator.__init__ p) w)
    as (v' & w1 & b & Hv & Hd1).
  assert (Hb : is_valid w p = b) by (unfold is_valid; by rewrite Hv).
  unfold classify. rewrite filter_cons, filter_nil, filter_cons, filter_nil.
  rewrite Hb.
  unfold Sorter.process_one, bind, call_on. simpl. rewrite Hv. simpl.
  destruct b.
  - rewrite decide_True, decide_False by done. rewrite app_nil_r.
    eexists. split; [reflexivity|]. exact Hd1.
  - rewrite decide_False, decide_True by done. rewrite app_nil_r.
    unfold logger_call at 1, modify at 1. simpl.
    destruct (negb (is_valid_zip v')); simpl.
    + match goal with
      | |- context [for_each _ _ (?o, ?w0)] =>
          destruct (log_each_disk (fun e => "  - " +:+ e)
                      (missing_resources v') o w0) as (w2 & -> & Hd2)
      end.
      eexists. split; [reflexivity|].
      eapply same_disk_trans; [apply same_disk_log|].
      eapply same_disk_trans; [exact Hd2|].
      eapply same_disk_trans; [apply same_disk_log|].
      eapply same_disk_trans; [apply same_disk_log|]. exact Hd1.
    + match goal with
      | |- context [for_each _ _ (?o, ?w0)] =>
          destruct (log_each_disk (fun e => "  - " +:+ e)
                      (missing_resources v') o w0) as (w2 & -> & Hd2)
      end.
      eexists. split; [reflexivity|].
      eapply same_disk_trans; [apply same_disk_log|].
      eapply same_disk_trans; [exact Hd2|].
      eapply same_disk_trans; [apply same_disk_log|]. exact Hd1.
Qed.

Lemma classify_cons (w : world) (p : Path) (files : list Path) (s : EpubSorter) :
  classify w (p :: files) s = classify w files (classify w [p] s).
Proof.
  unfold classify.
  cbn [directory isolate_broken valid_epubs broken_epubs].
  rewrite !(filter_cons _ p), !filter_nil.
  destruct (is_valid w p) eqn:Hv.
  - rewrite decide_True, decide_False by done.
    by rewrite app_nil_r, <- app_assoc.
  - rewrite decide_False, decide_True by done.
    by rewrite app_nil_r, <- app_assoc.
Qed.

Lemma classify_same_fs (w1 w2 : world) (files : list Path) (s : EpubSorter) :
  fs w1 = fs w2 → classify w1 files s = classify w2 files s.
Proof.
  intros Hfs. unfold classify. f_equal.
  - f_equal. apply list_filter_iff. intros p.
    by rewrite (is_valid_same_fs w1 w2 p Hfs).
  - f_equal. apply list_filter_iff. intros p.
    by rewrite (is_valid_same_fs w1 w2 p Hfs).
Qed.

Lemma scan_loop_exact (files : list Path) (s : EpubSorter) (w : world) :
  ∃ w',
    for_each files Sorter.process_one (s, w)
    = ((classify w files s, w'), Return tt)
    ∧ same_disk w' w.
Proof.
  revert s w. induction files as [|p files IH]; intros s w.
  - exists w. split; [|apply same_disk_refl].
    unfold classify. simpl. rewrite !app_nil_r. by destruct s.
  - destruct (process_one_exact p s w) as (w1 & Hone & Hd1).
    destruct (IH (classify w [p] s) w1) as (w' & Hloop & Hd').
    exists w'. split; [|by apply same_disk_trans with w1].
    rewrite classify_cons, <- (classify_same_fs w1 w files _ (proj1 Hd1)).
    change (for_each (p :: files) Sorter.process_one (s, w))
      with (bind (Sorter.process_one p)
              (fun _ => for_each files Sorter.process_one) (s, w)).
    unfold bind. rewrite Hone. exact Hloop.
Qed.

Lemma Path_exists_true (w : world) (p : Path) :
  Path_exists w p = true → Path_exists_outcome w p = Return true.
Proof.
  unfold Path_exists. destruct (Path_exists_outcome w p) as [b|e]; [|done].
  by intros ->.
Qed.

(** [process] on a directory that exists and has matching entries: the
    validation loop, then the isolation when it is asked for and there is
    something broken, then the summary. *)
Lemma process_run (s : EpubSorter) (w : world) :
  Path_exists w (directory s) = true →
  glob_epub w (directory s) ≠ [] →
  ∃ w1,
    same_disk w1 w
    ∧ Sorter.process (s, w)
      = Sorter._print_summary
          (classify w (glob_epub w (directory s)) s,
           if isolate_broken s
              && bool_decide
                   (broken_epubs (classify w (glob_epub w (directory s)) s)
                    ≠ [])
           then isolate_world (classify w (glob_epub w (directory s)) s) w1
           else w1).
Proof.
  intros Hexists Hfiles.
  destruct (scan_loop_exact (glob_epub w (directory s)) s
              (set_log
                 (log_emit INFO
                    ("Found " +:+ pretty (length (glob_epub w (directory s)))
                     +:+ " EPUB files. Starting validation..." +:+
                     Sorter.newline) (log w)) w))
    as (w1 & Hloop & Hd).
  rewrite (classify_same_fs (set_log _ w) w (glob_epub w (directory s)) s eq_refl)
    in Hloop.
  remember (classify w (glob_epub w (directory s)) s) as s' eqn:Hs'.
  assert (Hiso : isolate_broken s' = isolate_broken s) by by subst s'.
  exists w1. split.
  - eapply same_disk_trans; [exact Hd | apply same_disk_log].
  - unfold Sorter.process, bind, get, Path_exists_call.
    cbn [fst snd]. rewrite (Path_exists_true _ _ Hexists). cbn [negb].
    rewrite (bool_decide_eq_false_2 _ Hfiles).
    unfold logger_call at 1, modify at 1. cbn [fst snd].
    rewrite Hloop. cbn [fst snd]. rewrite Hiso.
    destruct (isolate_broken s && bool_decide (broken_epubs s' ≠ [])).
    + by rewrite isolate_broken_files_run.
    + reflexivity.
Qed.

Lemma print_summary_run (s : EpubSorter) (w : world) :
  Sorter._print_summary (s, w)
  = ((s, set_stdout (stdout w ++ summary_lines s) w), Return tt).
Proof.
  unfold Sorter._print_summary, summary_lines, bind, get, print, modify.
  simpl.
  destruct (isolate_broken s && bool_decide (broken_epubs s ≠ [])); simpl;
    rewrite <- ?app_assoc; reflexivity.
Qed.

(** [process] on a directory for which [exists] does not answer [True]:
    the error of the test is raised to the caller, and a missing
    directory is logged. *)
Lemma process_missing_directory (s : EpubSorter) (w : world) :
  Path_exists w (directory s) = false →
  Sorter.process (s, w)
  = match exists_error w (directory s) with
    | Some msg => ((s, w), Raise (OtherException msg))
    | None =>
        ((s, set_log (log w ++ [(ERROR, "Directory not found: " +:+
                                        Path_str (directory s))]) w),
         Return tt)
    end.
Proof.
  unfold Path_exists, Sorter.process, bind, get, Path_exists_call,
    Path_exists_outcome. cbn [fst snd].
  destruct (exists_error w (directory s)); [done|]. by intros ->.
Qed.

Lemma process_missing_directory_disk (s : EpubSorter) (w : world) :
  Path_exists w (directory s) = false →
  (Sorter.process (s, w)).1.1 = s
  ∧ same_disk (Sorter.process (s, w)).1.2 w.
Proof.
  intros H. rewrite (process_missing_directory s w H).
  destruct (exists_error w (directory s)); by repeat split.
Qed.

Lemma process_no_files (s : EpubSorter) (w : world) :
  Path_exists w (directory s) = true →
  glob_epub w (directory s) = [] →
  Sorter.process (s, w)
  = ((s, set_log (log w ++ [(INFO, "No EPUB files found in the specified directory.")])
           w), Return tt).
Proof.
  intros H Hnil. unfold Sorter.process, bind, get, Path_exists_call.
  cbn [fst snd]. rewrite (Path_exists_true _ _ H). cbn [negb].
  by rewrite (bool_decide_eq_true_2 _ Hnil).
Qed.

Lemma invalid_filter (w : world) (files : list Path) :
  filter (fun p => is_valid w p = false) files
  = filter (fun p => ¬ is_valid w p = true) files.
Proof.
  apply list_filter_iff. intros p. by destruct (is_valid w p).
Qed.

(** ** What a run of [process] does *)


(** X14: Every matched entry is classified once, in the order of the listing:
    a fresh sorter ends with the entries that [validate] accepts in
    [valid_epubs] and the others in [broken_epubs], so the two lists
    together are the listing, rearranged. *)
Theorem process_partitions_the_listing
    (dir : Path) (isolate : bool) (w : world)
    (Hexists : Path_exists w dir = true) :
  let files := glob_epub w dir in
  let s' := (Sorter.process (Sorter.__init__ dir isolate, w)).1.1 in
  valid_epubs s' = filter (fun p => is_valid w p = true) files
  ∧ broken_epubs s' = filter (fun p => is_valid w p = false) files
  ∧ valid_epubs s' ++ broken_epubs s' ≡ₚ files
  ∧ directory s' = dir ∧ isolate_broken s' = isolate.
Proof.
  cbv zeta.
  destruct (decide (glob_epub w dir = [])) as [Hnil|Hfiles].
  - rewrite process_no_files by done. simpl. by rewrite Hnil.
  - destruct (process_run (Sorter.__init__ dir isolate) w Hexists Hfiles)
      as (w1 & _ & ->).
    rewrite print_summary_run. simpl.
    split; [done|]. split; [done|]. split; [|done].
    rewrite invalid_filter. apply filter_app_complement.
Qed.

Lemma process_partitions_the_listing_witness :
  Path_exists isolation_world ["books"] = true
  ∧ valid_epubs
      (Sorter.process (Sorter.__init__ ["books"] true, isolation_world)).1.1
    ++ broken_epubs
         (Sorter.process (Sorter.__init__ ["books"] true, isolation_world)).1.1
    ≡ₚ glob_epub isolation_world ["books"].
Proof.
  assert (H : Path_exists isolation_world ["books"] = true)
    by (vm_compute; reflexivity).
  split; [exact H|].
  pose proof (process_partitions_the_listing ["books"] true isolation_world H)
    as Hp.
  cbv zeta in Hp. exact (proj1 (proj2 (proj2 Hp))).
Defined.

(** X15: Without [--isolate], and also when nothing is broken, [process] only
    reads: the file system after the run is the one before. *)
Theorem process_without_isolation_only_reads (s : EpubSorter) (w : world)
    (Hread :
       isolate_broken s = false
       ∨ broken_epubs (classify w (glob_epub w (directory s)) s) = []) :
  fs (Sorter.process (s, w)).1.2 = fs w.
Proof.
  destruct (Path_exists w (directory s)) eqn:Hexists.
  - destruct (decide (glob_epub w (directory s) = [])) as [Hnil|Hfiles].
    + by rewrite process_no_files.
    + destruct (process_run s w Hexists Hfiles) as (w1 & Hd & ->).
      rewrite print_summary_run. cbn [fst snd]. unfold set_stdout. cbn [fs].
      destruct Hread as [Hiso | Hnone].
      * rewrite Hiso. apply Hd.
      * rewrite Hnone.
        rewrite bool_decide_eq_false_2 by (by intros H; apply H).
        rewrite andb_false_r. apply Hd.
  - apply (process_missing_directory_disk s w Hexists).
Qed.

Lemma process_without_isolation_only_reads_witness :
  (isolate_broken (Sorter.__init__ ["books"] false) = false
   ∨ broken_epubs
       (classify isolation_world
          (glob_epub isolation_world
             (directory (Sorter.__init__ ["books"] false)))
          (Sorter.__init__ ["books"] false)) = [])
  ∧ fs (Sorter.process (Sorter.__init__ ["books"] false, isolation_world)).1.2
    = fs isolation_world.
Proof.
  assert (H : isolate_broken (Sorter.__init__ ["books"] false) = false
              ∨ broken_epubs
                  (classify isolation_world
                     (glob_epub isolation_world
                        (directory (Sorter.__init__ ["books"] false)))
                     (Sorter.__init__ ["books"] false)) = []).
  { left. reflexivity. }
  split; [exact H|].
  exact (process_without_isolation_only_reads
           (Sorter.__init__ ["books"] false) isolation_world H).
Defined.

Lemma classified_lengths (w : world) (files : list Path) :
  length (filter (fun p => is_valid w p = true) files)
  + length (filter (fun p => is_valid w p = false) files)
  = length files.
Proof.
  rewrite <- length_app, invalid_filter.
  apply Permutation_length, filter_app_complement.
Qed.

Lemma isolate_world_stdout (s : EpubSorter) (w : world) :
  stdout (isolate_world s w) = stdout w.
Proof.
  unfold isolate_world.
  destruct (mkdir_refusal w (directory s ++ ["broken"])); [done|].
  rewrite isolate_from_stdout. apply with_directory_oracles.
Qed.

(** X16: The summary is printed exactly when the directory exists and has
    matching entries.  For a fresh sorter its total is the number of
    matched entries, and the [Moved to] line appears whenever isolation
    was asked for and some archive is broken. *)
Theorem summary_counts_the_listing (dir : Path) (isolate : bool) (w : world) :
  let files := glob_epub w dir in
  let valid := filter (fun p => is_valid w p = true) files in
  let broken := filter (fun p => is_valid w p = false) files in
  let out := stdout (Sorter.process (Sorter.__init__ dir isolate, w)).1.2 in
  (Path_exists w dir = false ∨ files = [] → out = stdout w)
  ∧ (Path_exists w dir = true → files ≠ [] →
     out = stdout w
           ++ ["------------------------------"; "Validation Summary";
               "------------------------------";
               "Total Files Checked: " +:+ pretty (length files);
               "Valid Files:         " +:+ pretty (length valid);
               "Broken Files:        " +:+ pretty (length broken)]
           ++ (if isolate && bool_decide (broken ≠ [])
               then ["Moved to:            " +:+ Path_str (dir ++ ["broken"])]
               else [])
           ++ ["------------------------------"]).
Proof.
  cbv zeta. split.
  - intros Hearly.
    destruct (Path_exists w dir) eqn:Hexists.
    + destruct Hearly as [Hearly|Hnil]; [discriminate Hearly|].
      by rewrite process_no_files.
    + apply (process_missing_directory_disk (Sorter.__init__ dir isolate) w
               Hexists).
  - intros Hexists Hfiles.
    destruct (process_run (Sorter.__init__ dir isolate) w Hexists Hfiles)
      as (w1 & Hd & ->).
    rewrite print_summary_run. cbn [fst snd]. unfold set_stdout. cbn [stdout].
    unfold summary_lines, classify.
    cbn [valid_epubs broken_epubs isolate_broken directory Sorter.__init__ app].
    rewrite classified_lengths.
    f_equal.
    + destruct (isolate && bool_decide
                  (filter (fun p => is_valid w p = false) (glob_epub w dir) ≠ [])).
      * rewrite isolate_world_stdout. apply Hd.
      * apply Hd.
Qed.

Lemma summary_counts_the_listing_witness :
  Path_exists isolation_world ["books"] = true
  ∧ glob_epub isolation_world ["books"] ≠ []
  ∧ stdout (Sorter.process (Sorter.__init__ ["books"] true, isolation_world)).1.2
    = ["------------------------------"; "Validation Summary";
       "------------------------------"; "Total Files Checked: 3";
       "Valid Files:         0"; "Broken Files:        3";
       "Moved to:            books/broken";
       "------------------------------"].
Proof.
  assert (H1 : Path_exists isolation_world ["books"] = true)
    by (vm_compute; reflexivity).
  assert (H2 : glob_epub isolation_world ["books"] ≠ []).
  { vm_compute. discriminate. }
  split; [exact H1|]. split; [exact H2|].
  pose proof (proj2 (summary_counts_the_listing ["books"] true isolation_world)
                H1 H2) as H.
  cbv zeta in H. etrans; [exact H|]. vm_compute. reflexivity.
Defined.

(** ** Isolation that cannot start *)





(** ** Where the entries are after a run *)

Lemma classify_nil (w : world) (s : EpubSorter) : classify w [] s = s.
Proof. unfold classify. simpl. rewrite !app_nil_r. by destruct s. Qed.

(** The sorter after [process]. *)
Lemma process_sorter (s : EpubSorter) (w : world) :
  (Sorter.process (s, w)).1.1
  = if Path_exists w (directory s)
    then classify w (glob_epub w (directory s)) s
    else s.
Proof.
  destruct (Path_exists w (directory s)) eqn:Hexists.
  - destruct (decide (glob_epub w (directory s) = [])) as [Hnil|Hfiles].
    + rewrite process_no_files by done. by rewrite Hnil, classify_nil.
    + destruct (process_run s w Hexists Hfiles) as (w1 & _ & ->).
      by rewrite print_summary_run.
  - apply (process_missing_directory_disk s w Hexists).
Qed.





(** ** Running again *)

Lemma glob_epub_same_fs (w1 w2 : world) (dir : Path) :
  fs w1 = fs w2 → glob_epub w1 dir = glob_epub w2 dir.
Proof. intros H. unfold glob_epub. by rewrite H. Qed.

(** Without isolation [process] leaves the file system and the ways in
    which the system fails as they were. *)
Lemma process_disk_kept (s : EpubSorter) (w : world) :
  isolate_broken s = false →
  fs (Sorter.process (s, w)).1.2 = fs w
  ∧ exists_error (Sorter.process (s, w)).1.2 = exists_error w.
Proof.
  intros Hiso.
  destruct (Path_exists w (directory s)) eqn:Hexists.
  - destruct (decide (glob_epub w (directory s) = [])) as [Hnil|Hfiles].
    + by rewrite process_no_files.
    + destruct (process_run s w Hexists Hfiles) as (w1 & Hd & ->).
      rewrite print_summary_run. cbn [fst snd]. unfold set_stdout.
      cbn [fs exists_error]. rewrite Hiso. cbn [andb].
      destruct Hd as (? & _ & _ & _ & ?). done.
  - destruct (process_missing_directory_disk s w Hexists)
      as [_ (? & _ & _ & _ & ?)]. done.
Qed.

(** X19: Scanning an unchanged directory again, without isolation, gives the
    same classification: a second fresh sorter, run in the world the first
    run left, ends with the same two lists. *)
Theorem rescan_classifies_alike (dir : Path) (w : world) :
  let first := Sorter.process (Sorter.__init__ dir false, w) in
  let second := Sorter.process (Sorter.__init__ dir false, first.1.2) in
  second.1.1 = first.1.1
  ∧ fs second.1.2 = fs w.
Proof.
  cbv zeta.
  destruct (process_disk_kept (Sorter.__init__ dir false) w eq_refl)
    as [Hfs Herr].
  split.
  - rewrite !process_sorter. cbn [directory Sorter.__init__].
    assert (Hex : Path_exists
                    (Sorter.process (Sorter.__init__ dir false, w)).1.2 dir
                  = Path_exists w dir).
    { unfold Path_exists, Path_exists_outcome. by rewrite Hfs, Herr. }
    rewrite Hex.
    rewrite (glob_epub_same_fs _ w dir Hfs).
    by rewrite (classify_same_fs _ w _ _ Hfs).
  - destruct (process_disk_kept (Sorter.__init__ dir false)
                (Sorter.process (Sorter.__init__ dir false, w)).1.2 eq_refl)
      as [Hfs2 _].
    by rewrite Hfs2.
Qed.

(** A turn that finds the region of its archive as an earlier turn for
    the same archive left it changes nothing: the archive was skipped and
    is skipped again, was moved and is now found at its destination, or
    fails as before. *)
Lemma second_turn_is_idle (dir p : Path) (w0 w : world) :
  move_error w = move_error w0 →
  (∀ q, region dir p q →
        fs w !! q = fate_fs dir p (fate_of dir p w0) (fs w0) !! q) →
  fate_fs dir p (fate_of dir p w) (fs w) = fs w.
Proof.
  intros Hmv Hreg.
  pose proof (Hreg _ (region_destination dir p)) as Hd.
  pose proof (Hreg _ (region_source dir p)) as Hs.
  unfold fate_of in Hd, Hs, Hreg |- *. cbv zeta in Hd, Hs, Hreg |- *.
  destruct (bool_decide (is_Some (fs w0 !! (dir ++ [Path_name p])))) eqn:E0.
  { unfold fate_fs in Hd. rewrite Hd, E0. reflexivity. }
  destruct (fs w0 !! p) as [n0|] eqn:Es0.
  2:{ unfold fate_fs in Hd, Hs. rewrite Hd, E0, Hs, Es0. reflexivity. }
  destruct (decide (p `prefix_of` dir ++ [Path_name p])) as [Hpre|Hpre].
  { unfold fate_fs in Hd, Hs. rewrite Hd, E0, Hs, Es0. reflexivity. }
  destruct (move_error w0 p (dir ++ [Path_name p])) as [[msg remains]|] eqn:Em.
  - destruct (bool_decide (is_Some (fs w !! (dir ++ [Path_name p]))));
      [reflexivity|].
    destruct (fs w !! p); [|reflexivity].
    rewrite Hmv, Em. unfold fate_fs.
    apply map_eq. intros q. rewrite graft_lookup.
    destruct (decide (p `prefix_of` q ∨ (dir ++ [Path_name p]) `prefix_of` q))
      as [Hq|Hq]; [|done].
    rewrite (Hreg q Hq). unfold fate_fs. rewrite graft_lookup.
    by rewrite decide_True by exact Hq.
  - unfold fate_fs in Hd.
    pose proof (rename_tree_moved p (dir ++ [Path_name p]) (fs w0) []) as Hm.
    rewrite !app_nil_r in Hm. rewrite Hm, Es0 in Hd.
    rewrite Hd. rewrite bool_decide_eq_true_2 by by eexists. reflexivity.
Qed.

(** Turns that change nothing, one after the other, change nothing. *)
Lemma idle_turns (dir : Path) (l : list Path) (w : world) :
  (∀ p, p ∈ l → fate_fs dir p (fate_of dir p w) (fs w) = fs w) →
  fs (fold_left (isolate_step dir) l w) = fs w.
Proof.
  revert w. induction l as [|a l IH]; intros w Hidle; [done|].
  assert (Hstep : fs (isolate_step dir w a) = fs w).
  { unfold isolate_step. cbn [fs set_log set_fs].
    apply Hidle, list_elem_of_here. }
  cbn [fold_left]. rewrite IH; [exact Hstep|].
  intros p Hp.
  rewrite (fate_local dir (isolate_step dir w a) w p);
    [|by rewrite Hstep|by rewrite Hstep|reflexivity].
  rewrite Hstep. by apply Hidle, list_elem_of_further.
Qed.

Lemma isolate_from_oracles (dir : Path) (l : list Path) (w : world) :
  exists_error (isolate_from dir l w) = exists_error w
  ∧ move_error (isolate_from dir l w) = move_error w.
Proof.
  unfold isolate_from, isolate_loop.
  destruct (loop_error (exists_error w) dir l);
    cbn [exists_error move_error set_log];
    by rewrite steps_exists_error, steps_move_error.
Qed.

(** After the loop has run once, a second pass changes nothing. *)
Lemma isolate_from_again (directory : Path) (l : list Path) (w : world) :
  (∀ p, p ∈ l → p = directory ++ [Path_name p] ∧ Path_name p ≠ "broken") →
  NoDup l →
  fs (isolate_from (directory ++ ["broken"]) l
        (isolate_from (directory ++ ["broken"]) l w))
  = fs (isolate_from (directory ++ ["broken"]) l w).
Proof.
  intros Hglob Hnodup.
  set (dir := directory ++ ["broken"]).
  destruct (isolate_from_oracles dir l w) as [Herr Hmove].
  set (w1 := isolate_from dir l w) in *.
  assert (Hidle : fs (fold_left (isolate_step dir)
                        (reached (exists_error w1) dir l)
                        (set_log (log w1 ++ [(INFO, "Moving broken files to: "
                                                    +:+ Path_str dir)]) w1))
                  = fs w1).
  { rewrite idle_turns; [done|]. intros p Hp. rewrite Herr in Hp.
    apply (second_turn_is_idle dir p w w1 Hmove).
    intros q Hq.
    destruct (isolate_from_region directory l Hglob Hnodup w p Hp) as [H1 _].
    fold dir in H1. fold w1 in H1. by rewrite (H1 q Hq). }
  unfold isolate_from at 1, isolate_loop.
  destruct (loop_error (exists_error w1) dir l); cbn [fs set_log];
    exact Hidle.
Qed.

Lemma with_directory_made (w : world) (dir : Path) :
  mkdir_refusal w dir = None → fs (with_directory w dir) !! dir = Some Dir.
Proof.
  unfold mkdir_refusal, with_directory.
  destruct (fs w !! dir) as [[f|]|] eqn:E; [done|done|].
  intros _. cbn [fs set_fs]. by rewrite lookup_insert_eq.
Qed.

(** X20: Running the isolation a second time moves nothing: the file system
    after the second call is the one after the first. *)
Theorem isolating_again_moves_nothing (s : EpubSorter) (w : world)
    (Hglob : ∀ p, p ∈ broken_epubs s →
                  p = directory s ++ [Path_name p] ∧ Path_name p ≠ "broken")
    (Hnodup : NoDup (broken_epubs s)) :
  let first := Sorter._isolate_broken_files (s, w) in
  let second := Sorter._isolate_broken_files first.1 in
  fs second.1.2 = fs first.1.2.
Proof.
  cbv zeta. rewrite isolate_broken_files_run. cbn [fst snd].
  rewrite isolate_broken_files_run. cbn [fst snd].
  set (dir := directory s ++ ["broken"]).
  unfold isolate_world at 2 3. fold dir.
  destruct (mkdir_refusal w dir) as [msg|] eqn:Hmk.
  - unfold isolate_world. fold dir.
    assert (Hmk' : mkdir_refusal
                     (set_log (log w ++ [(ERROR,
                        "Failed to create isolation directory: " +:+ msg)]) w)
                     dir = Some msg) by exact Hmk.
    by rewrite Hmk'.
  - set (w1 := isolate_from dir (broken_epubs s) (with_directory w dir)).
    assert (Hdir : fs w1 !! dir = Some Dir).
    { unfold w1, dir. rewrite isolate_from_frame.
      - by apply with_directory_made.
      - intros a Ha. destruct (Hglob a (reached_elem _ _ _ a Ha)).
        by apply isolation_dir_outside. }
    unfold isolate_world. fold dir.
    assert (Hready : mkdir_refusal w1 dir = None)
      by (unfold mkdir_refusal; by rewrite Hdir).
    assert (Hsame : with_directory w1 dir = w1)
      by (unfold with_directory; by rewrite Hdir).
    rewrite Hready, Hsame. unfold w1, dir.
    by apply isolate_from_again.
Qed.

Lemma isolating_again_moves_nothing_witness :
  (∀ p, p ∈ broken_epubs isolation_sorter →
        p = directory isolation_sorter ++ [Path_name p]
        ∧ Path_name p ≠ "broken")
  ∧ NoDup (broken_epubs isolation_sorter)
  ∧ fs (Sorter._isolate_broken_files
          (Sorter._isolate_broken_files (isolation_sorter, isolation_world)).1).1.2
    = fs (Sorter._isolate_broken_files (isolation_sorter, isolation_world)).1.2.
Proof.
  assert (Hglob : ∀ p, p ∈ broken_epubs isolation_sorter →
                       p = directory isolation_sorter ++ [Path_name p]
                       ∧ Path_name p ≠ "broken").
  { intros p Hp. simpl in Hp.
    repeat (apply elem_of_cons in Hp as [->|Hp]; [split; [reflexivity|discriminate]|]).
    by apply elem_of_nil in Hp. }
  assert (Hnodup : NoDup (broken_epubs isolation_sorter)).
  { apply (bool_decide_unpack _). vm_compute. exact I. }
  split; [exact Hglob|]. split; [exact Hnodup|].
  exact (isolating_again_moves_nothing isolation_sorter isolation_world
           Hglob Hnodup).
Defined.

(** * Two more properties of the validator *)

(** X7: An archive without a content document is valid: when no entry name
    ends in [.html], [.xhtml] or [.htm], in any case, nothing is opened
    and [validate] on a fresh validator answers true. *)
Theorem archive_without_documents_is_valid (p : Path) (w : world) (zf : ZipFile)
    (Hz : is_zipfile (file_at w p) = true)
    (Hopen : ZipFile_open (file_at w p) = Return zf)
    (Hnone : ∀ n, n ∈ namelist zf → Validator.is_content_document n = false) :
  Validator.validate (Validator.__init__ p, w)
  = ((Validator.__init__ p, w), Return true).
Proof.
  rewrite (validate_opened (Validator.__init__ p) w zf Hz Hopen).
  assert (Hv : archive_verdict zf = []).
  { unfold archive_verdict.
    rewrite (flat_map_agree _ (fun _ => [])).
    - by induction (elements _).
    - intros d Hd. apply elem_of_elements, elem_of_list_to_set in Hd.
      unfold document_verdict. by rewrite (Hnone d Hd). }
  rewrite Hv. by rewrite add_missing_nil.
Qed.

Lemma archive_without_documents_is_valid_witness :
  is_zipfile (file_at (one_file_world older_file) book) = true
  ∧ ZipFile_open (file_at (one_file_world older_file) book)
    = Return (archive_of ["mimetype"] [])
  ∧ (∀ n, n ∈ namelist (archive_of ["mimetype"] []) →
          Validator.is_content_document n = false)
  ∧ Validator.validate (Validator.__init__ book, one_file_world older_file)
    = ((Validator.__init__ book, one_file_world older_file), Return true).
Proof.
  assert (H1 : is_zipfile (file_at (one_file_world older_file) book) = true)
    by reflexivity.
  assert (H2 : ZipFile_open (file_at (one_file_world older_file) book)
               = Return (archive_of ["mimetype"] [])) by reflexivity.
  assert (H3 : ∀ n, n ∈ namelist (archive_of ["mimetype"] []) →
                    Validator.is_content_document n = false).
  { intros n Hn. simpl in Hn. apply list_elem_of_singleton in Hn. by subst n. }
  repeat (split; [assumption|]).
  exact (archive_without_documents_is_valid book (one_file_world older_file)
           (archive_of ["mimetype"] []) H1 H2 H3).
Defined.

(** X12: An escaped spelling and the spelling it decodes to are verified
    alike: when neither is external and the decoded reference holds no
    percent sign, [_verify_resource] does the same for both. *)
Theorem escaped_and_literal_spellings_agree
    (src base_dir : string) (all_files : gset string) (context_file : string)
    (st : EpubValidator * world)
    (Hraw : ¬ external_reference src)
    (Hdecoded : ¬ external_reference (urllib.unquote src))
    (Hplain : urllib.contains_percent (urllib.unquote src) = false) :
  Validator._verify_resource src base_dir all_files context_file st
  = Validator._verify_resource (urllib.unquote src) base_dir all_files
      context_file st.
Proof.
  rewrite !verify_resource_run. unfold verdict_in.
  rewrite (not_external_reference _ Hraw), (not_external_reference _ Hdecoded).
  cbv zeta.
  assert (Hid : urllib.unquote (urllib.unquote src) = urllib.unquote src).
  { unfold urllib.unquote at 1. by rewrite Hplain. }
  by rewrite Hid.
Qed.

Lemma escaped_and_literal_spellings_agree_witness :
  ¬ external_reference "images%2Fmy%20cover.jpg"
  ∧ ¬ external_reference (urllib.unquote "images%2Fmy%20cover.jpg")
  ∧ urllib.contains_percent (urllib.unquote "images%2Fmy%20cover.jpg") = false
  ∧ Validator._verify_resource "images%2Fmy%20cover.jpg" "OEBPS"
      {[ "OEBPS/images/my cover.jpg" ]} "OEBPS/cover.xhtml"
      (Validator.__init__ book, scenario2_world)
    = Validator._verify_resource "images/my cover.jpg" "OEBPS"
        {[ "OEBPS/images/my cover.jpg" ]} "OEBPS/cover.xhtml"
        (Validator.__init__ book, scenario2_world).
Proof.
  assert (H1 : ¬ external_reference "images%2Fmy%20cover.jpg").
  { intros H. apply external_reference_spec in H. discriminate H. }
  assert (H2 : ¬ external_reference (urllib.unquote "images%2Fmy%20cover.jpg")).
  { intros H. apply external_reference_spec in H. discriminate H. }
  assert (H3 : urllib.contains_percent
                 (urllib.unquote "images%2Fmy%20cover.jpg") = false)
    by reflexivity.
  repeat (split; [assumption|]).
  exact (escaped_and_literal_spellings_agree "images%2Fmy%20cover.jpg" "OEBPS"
           {[ "OEBPS/images/my cover.jpg" ]} "OEBPS/cover.xhtml"
           (Validator.__init__ book, scenario2_world) H1 H2 H3).
Defined.

Lemma validate_verdict_classified_witness :
  (Validator.validate (Validator.__init__ book, open_error_world)).2
  = Return false
  ∧ is_valid_zip
      (Validator.validate (Validator.__init__ book, open_error_world)).1.1
    = true
  ∧ missing_resources
      (Validator.validate (Validator.__init__ book, open_error_world)).1.1
    = [].
Proof.
  assert (H : (Validator.validate (Validator.__init__ book, open_error_world)).2
              = Return false) by (vm_compute; reflexivity).
  split; [exact H|].
  destruct (proj2 (proj2 (validate_verdict_classified book open_error_world)) H)
    as [Hflag | [Hmissing | (_ & Hflag & Hmissing)]].
  - vm_compute in Hflag. discriminate Hflag.
  - exfalso. apply Hmissing. vm_compute. reflexivity.
  - exact (conj Hflag Hmissing).
Defined.
